(** * gemini_robot: the file finder, the file organizer and the session loop

    A shallow embedding of [gemini_robot.py].  Python strings are Rocq
    [string]s (bytes); the operating system ([os.path], [glob], [shutil])
    and the hosted model are interfaces the program is parameterised by;
    printing, sleeping and the file-system calls are recorded, in order, in
    a trace carried by the state. *)

From Stdlib Require Import String Ascii List Arith Bool Lia.
From Stdlib Require Import DecimalString DecimalNat Finite.
Import ListNotations.
Local Open Scope list_scope.
Local Open Scope string_scope.

(** ** Python string methods used by the program *)

Module PyStr.

(** The line feed of the source's ["\n"]. *)
Definition nl : string := String (ascii_of_nat 10) "".

(** [s.startswith(p)] *)
Definition startswith (s p : string) : bool := String.prefix p s.

(** [sub in s] *)
Fixpoint contains (sub s : string) : bool :=
  String.prefix sub s ||
  match s with
  | EmptyString => false
  | String _ s' => contains sub s'
  end.

(** [s.endswith(p)] *)
Fixpoint endswith (s p : string) : bool :=
  String.eqb s p ||
  match s with
  | EmptyString => false
  | String _ s' => endswith s' p
  end.

(** One character of [s.lower()], on the ASCII range. *)
Definition lower_ascii (c : ascii) : ascii :=
  let n := nat_of_ascii c in
  if ((65 <=? n)%nat && (n <=? 90)%nat)%bool then ascii_of_nat (n + 32) else c.

(** [s.lower()] *)
Fixpoint lower (s : string) : string :=
  match s with
  | EmptyString => EmptyString
  | String c s' => String (lower_ascii c) (lower s')
  end.

(** Membership of a character in the character set of a strip call. *)
Fixpoint mem_ascii (c : ascii) (chars : string) : bool :=
  match chars with
  | EmptyString => false
  | String d chars' => Ascii.eqb c d || mem_ascii c chars'
  end.

(** [s.lstrip(chars)]: every leading character of the set is removed. *)
Fixpoint lstrip (chars s : string) : string :=
  match s with
  | EmptyString => EmptyString
  | String c s' => if mem_ascii c chars then lstrip chars s' else s
  end.

(** [s.rstrip(chars)]: every trailing character of the set is removed. *)
Fixpoint rstrip (chars s : string) : string :=
  match s with
  | EmptyString => EmptyString
  | String c s' =>
      match rstrip chars s' with
      | EmptyString => if mem_ascii c chars then EmptyString else String c EmptyString
      | r => String c r
      end
  end.

(** [str(n)] for a non-negative integer. *)
Definition str (n : nat) : string := NilEmpty.string_of_uint (Nat.to_uint n).

(** [sep.join(l)] *)
Fixpoint join (sep : string) (l : list string) : string :=
  match l with
  | [] => ""
  | [x] => x
  | x :: rest => x ++ sep ++ join sep rest
  end.

(** [s in l] for a list of strings. *)
Definition mem (s : string) (l : list string) : bool :=
  existsb (String.eqb s) l.

End PyStr.

(** [l.append(x)] *)
Definition list_append {A : Type} (l : list A) (x : A) : list A := (l ++ [x])%list.

(** ** The platform: [os.path], [glob], [shutil] and the file system *)

(** What the generator [glob.iglob] does when asked for its next element:
    it yields a path or raises; the end of the list is [StopIteration]. *)
Inductive glob_event : Type :=
| Yield (file_path : string)
| Raise (e : string).

(** The library calls of the program over a file-system state [FS].  A call
    that changes the file system returns the new state and, when it raised,
    the text [str(e)] of the exception.  [print_raises line] is the text of
    the exception [print] raises on a line the console cannot encode; it is
    asked for the line of line 132, which names a file met in the
    traversal.  The other lines hold fixed text, counts and the caller's
    own arguments, which the first print of the call has shown. *)
Class Platform : Type := {
  FS : Type;
  abspath : string -> string;
  path_join : string -> string -> string;
  dirname : string -> string;
  basename : string -> string;
  splitext : string -> string * string;
  iglob : FS -> string -> list glob_event;
  path_exists : FS -> string -> bool;
  makedirs : FS -> string -> FS * option string;
  move : FS -> string -> string -> FS * option string;
  print_raises : string -> option string
}.

(** Observable actions, in the order the program performs them. *)
Inductive event : Type :=
| Print (line : string)
| MakeDirs (path : string)
| Move (src dst : string)
| Ask (prompt : string)
| Send (user_input : string)
| Sleep (seconds : nat).

Section Robot.

Context {P : Platform}.

(** The state threaded through the tool functions. *)
Record World : Type := mkWorld {
  fs : FS;
  trace : list event
}.

Definition emit (e : event) (w : World) : World :=
  {| fs := fs w; trace := list_append (trace w) e |}.

Definition print (line : string) (w : World) : World := emit (Print line) w.

(** *** find_files *)

(** The cap on the number of collected paths (line 65). *)
Definition max_found : nat := 50.

(** How the [for] loop over the generator ended, with the number of
    elements it took from the generator. *)
Record LoopEnd : Type := mkLoopEnd {
  outcome : string + list string;   (* [inl e]: raised; [inr found_files] *)
  after : World;
  taken : nat
}.

(** Lines 62-67: the loop over [glob.iglob(search_pattern)]. *)
Fixpoint find_loop (it : list glob_event) (found_files : list string)
    (count : nat) (w : World) : LoopEnd :=
  match it with
  | [] => mkLoopEnd (inr found_files) w count
  | Raise e :: _ => mkLoopEnd (inl e) w count
  | Yield file_path :: rest =>
      let found_files := list_append found_files (abspath file_path) in
      let count := count + 1 in
      if (max_found <=? count)%nat then
        mkLoopEnd (inr found_files)
          (print "[Robot] Found 50+ files, stopping search to keep output manageable." w)
          count
      else find_loop rest found_files count w
  end.

(** Line 48: the extension as it enters the search pattern. *)
Definition clean_extension (file_extension : string) : string :=
  PyStr.lstrip "." (PyStr.lower file_extension).

(** The separators trimmed on line 51: slash and backslash. *)
Definition separators : string := String "/" (String (ascii_of_nat 92) "").

Definition find_files (file_extension search_path : string) (w : World)
    : list string * World :=
  let w := print (PyStr.nl ++ "[Robot] Searching for '" ++ file_extension
                  ++ "' files in '" ++ search_path ++ "'...") w in
  let ext := clean_extension file_extension in
  let w :=
    if PyStr.endswith (PyStr.rstrip separators search_path) ":" then
      print ("[Robot] Warning: Scanning entire drive " ++ search_path
             ++ ". This might take a while.") w
    else w in
  let search_pattern := path_join search_path ("**/*." ++ ext) in
  let r := find_loop (iglob (fs w) search_pattern) [] 0 w in
  match outcome r with
  | inl e => (["Error during search: " ++ e], after r)
  | inr [] =>
      (["No files with extension ." ++ ext ++ " found in " ++ search_path], after r)
  | inr found_files =>
      (found_files,
       print ("[Robot] Found " ++ PyStr.str (length found_files) ++ " files.") (after r))
  end.

(** *** organize_files *)

(** How a call of a tool function ends. *)
Inductive result : Type :=
| Return (status : string)
| IndexError.

(** Line 97, the test
    [files_to_move and files_to_move[0].startswith("Error")
     or files_to_move[0].startswith("No files")]:
    [and] binds tighter than [or], an empty list is falsy, and indexing
    an empty list raises, which is [None] here. *)
Definition is_sentinel (files_to_move : list string) : option bool :=
  let conj :=
    match files_to_move with
    | [] => false
    | first :: _ => PyStr.startswith first "Error"
    end in
  if conj then Some true
  else
    match hd_error files_to_move with
    | None => None
    | Some first => Some (PyStr.startswith first "No files")
    end.

(** The counters of the move phase (lines 110-111) and the state. *)
Record MoveState : Type := mkMoveState {
  moved_count : nat;
  errors : list string;
  world : World
}.

(** Line 126: the name tried for a given counter. *)
Definition candidate (target_dir base extension : string) (counter : nat) : string :=
  path_join target_dir (base ++ "_" ++ PyStr.str counter ++ extension).

(** Lines 125-127: the [while] loop; [fuel] bounds the number of tests of
    its condition, [None] is a run that needs more. *)
Fixpoint resolve_collision (fuel : nat) (fs0 : FS)
    (target_dir base extension destination : string) (counter : nat)
    : option string :=
  match fuel with
  | 0 => None
  | S fuel =>
      if path_exists fs0 destination then
        resolve_collision fuel fs0 target_dir base extension
          (candidate target_dir base extension counter) (counter + 1)
      else Some destination
  end.

(** Lines 119-127: the destination of one file. *)
Definition choose_destination (fuel : nat) (fs0 : FS)
    (target_dir filename : string) : option string :=
  let destination := path_join target_dir filename in
  if path_exists fs0 destination then
    let (base, extension) := splitext filename in
    resolve_collision fuel fs0 target_dir base extension destination 1
  else Some destination.

(** Lines 114-134: the body of the loop over [files_to_move]. *)
Definition move_one (fuel : nat) (target_dir file_path : string)
    (st : MoveState) : option MoveState :=
  if String.eqb (dirname file_path) (abspath target_dir) then Some st
  else
    let filename := basename file_path in
    match choose_destination fuel (fs (world st)) target_dir filename with
    | None => None
    | Some destination =>
        let w := emit (Move file_path destination) (world st) in
        match move (fs w) file_path destination with
        | (fs', None) =>
            (* line 131 has counted the file when line 132 prints, inside the [try] *)
            match print_raises ("  Moved: " ++ filename) with
            | None =>
                Some {| moved_count := moved_count st + 1;
                        errors := errors st;
                        world := print ("  Moved: " ++ filename) (mkWorld fs' (trace w)) |}
            | Some e =>
                Some {| moved_count := moved_count st + 1;
                        errors := list_append (errors st)
                                    ("Failed to move " ++ filename ++ ": " ++ e);
                        world := mkWorld fs' (trace w) |}
            end
        | (fs', Some e) =>
            Some {| moved_count := moved_count st;
                    errors := list_append (errors st)
                                ("Failed to move " ++ filename ++ ": " ++ e);
                    world := mkWorld fs' (trace w) |}
        end
    end.

(** Line 113: the loop over [files_to_move]. *)
Fixpoint move_files (fuel : nat) (target_dir : string) (files : list string)
    (st : MoveState) : option MoveState :=
  match files with
  | [] => Some st
  | file_path :: rest =>
      match move_one fuel target_dir file_path st with
      | None => None
      | Some st => move_files fuel target_dir rest st
      end
  end.

(** Lines 136-140: the status message. *)
Definition result_msg (st : MoveState) (target_dir : string) : string :=
  let result_msg :=
    "Successfully moved " ++ PyStr.str (moved_count st) ++ " files to "
    ++ target_dir ++ "." in
  match errors st with
  | [] => result_msg
  | _ => result_msg ++ PyStr.nl ++ "Errors encountered: " ++ PyStr.join "; " (errors st)
  end.

(** Lines 100-107: the target directory is created when it is missing;
    the second component is the text of the exception, if any. *)
Definition ensure_target (target_dir : string) (w : World) : World * option string :=
  if path_exists (fs w) target_dir then (w, None)
  else
    let w := emit (MakeDirs target_dir) w in
    match makedirs (fs w) target_dir with
    | (fs', None) =>
        (print ("[Robot] Created directory: " ++ target_dir) (mkWorld fs' (trace w)), None)
    | (fs', Some e) => (mkWorld fs' (trace w), Some e)
    end.

Definition organize_files (fuel : nat)
    (file_extension source_path target_folder_name : string) (w : World)
    : option (result * World) :=
  let w := print (PyStr.nl ++ "[Robot] Organizing: Moving all '." ++ file_extension
                  ++ "' files from '" ++ source_path ++ "' to '"
                  ++ target_folder_name ++ "'...") w in
  let (files_to_move, w) := find_files file_extension source_path w in
  match is_sentinel files_to_move with
  | None => Some (IndexError, w)
  | Some true =>
      match hd_error files_to_move with
      | Some first => Some (Return first, w)
      | None => Some (IndexError, w)
      end
  | Some false =>
      let target_dir := path_join source_path target_folder_name in
      match ensure_target target_dir w with
      | (w, Some e) => Some (Return ("Failed to create target directory: " ++ e), w)
      | (w, None) =>
          match move_files fuel target_dir files_to_move (mkMoveState 0 [] w) with
          | None => None
          | Some st => Some (Return (result_msg st target_dir), world st)
          end
      end
  end.

End Robot.

(** ** The session loop *)

(** The hosted model behind [chat.send_message]: an opaque conversation
    state; a call returns the reply's text ([inl]) or raises, with
    [str(e)] as [inr], and the next state.  Whatever the model does through
    its tools happens inside that state. *)
Class Dispatcher : Type := {
  Chat : Type;
  send_message : Chat -> string -> (string + string) * Chat
}.

Section Session.

Context {D : Dispatcher}.

Definition max_retries : nat := 3.

(** How the retry loop of lines 168-182 ends: by leaving the [while]
    (its [break] or its condition), or by the re-raised exception. *)
Inductive loop_exit : Type :=
| Left
| Reraised (e : string).

Record RetryEnd : Type := mkRetryEnd {
  exit : loop_exit;
  retry_count : nat;
  chat_after : Chat;
  trace_after : list event
}.

(** Lines 168-182; [fuel] bounds the number of tests of the condition. *)
Fixpoint retry_loop (fuel : nat) (user_input : string) (retry_count : nat)
    (chat : Chat) (tr : list event) : option RetryEnd :=
  match fuel with
  | 0 => None
  | S fuel =>
      if (retry_count <? max_retries)%nat then
        let tr := list_append tr (Send user_input) in
        match send_message chat user_input with
        | (inl text, chat) =>
            Some (mkRetryEnd Left retry_count chat (list_append tr (Print ("Robot: " ++ text))))
        | (inr error_str, chat) =>
            if PyStr.contains "429" error_str then
              let retry_count := retry_count + 1 in
              let wait_time := 10 * retry_count in
              let tr :=
                list_append tr
                  (Print ("Rate limit hit. Waiting " ++ PyStr.str wait_time
                          ++ " seconds before retry " ++ PyStr.str retry_count
                          ++ "/" ++ PyStr.str max_retries ++ "...")) in
              let tr := list_append tr (Sleep wait_time) in
              retry_loop fuel user_input retry_count chat tr
            else Some (mkRetryEnd (Reraised error_str) retry_count chat tr)
        end
      else Some (mkRetryEnd Left retry_count chat tr)
  end.

(** Lines 163-188: one user input that is not an exit command.  The
    loop tests its condition at most [max_retries + 1] times. *)
Definition respond (user_input : string) (chat : Chat) (tr : list event)
    : option (Chat * list event) :=
  match retry_loop (S max_retries) user_input 0 chat tr with
  | None => None
  | Some r =>
      match exit r with
      | Left =>
          if (max_retries <=? retry_count r)%nat then
            Some (chat_after r,
                  list_append (trace_after r)
                    (Print "Error: Could not get a response after multiple retries due to rate limits."))
          else Some (chat_after r, trace_after r)
      | Reraised e =>
          Some (chat_after r, list_append (trace_after r) (Print ("An error occurred: " ++ e)))
      end
  end.

(** How [chat_session] ends: its [break], or the [EOFError] of [input]
    on an exhausted standard input, which nothing catches. *)
Inductive session_end : Type :=
| Exited
| RaisedEOFError.

(** Lines 157-188: the [while True] loop over the lines of standard input. *)
Fixpoint session_loop (stdin : list string) (chat : Chat) (tr : list event)
    : option (session_end * Chat * list event) :=
  let tr := list_append tr (Ask (PyStr.nl ++ "You: ")) in
  match stdin with
  | [] => Some (RaisedEOFError, chat, tr)
  | user_input :: stdin =>
      if PyStr.mem (PyStr.lower user_input) ["exit"; "quit"] then
        Some (Exited, chat, list_append tr (Print "Goodbye!"))
      else
        match respond user_input chat tr with
        | None => None
        | Some (chat, tr) => session_loop stdin chat tr
        end
  end.

(** The first bytes of the banner's second line, as they are in the source file. *)
Definition glyph : string :=
  string_of_list_ascii (map ascii_of_nat [239; 163; 191; 195; 188; 194; 167; 195; 177]).

Definition banner : list event :=
  [ Print "---------------------------------------------------------";
    Print (glyph ++ " Gemini File System Robot Initialized!");
    Print "I can help you find and organize files.";
    Print "Example commands:";
    Print " - 'Find all PDFs in C:/Users/Rakesh/Documents'";
    Print " - 'Move all text files in my current folder to a folder named Archive'";
    Print "Type 'exit' to quit.";
    Print "---------------------------------------------------------" ].

(** Lines 144-188; [chat] is the conversation [model.start_chat] returns. *)
Definition chat_session (stdin : list string) (chat : Chat)
    : option (session_end * Chat * list event) :=
  session_loop stdin chat banner.

End Session.


(** ** Vocabulary of the statements *)

(** The paths a traversal yields before it ends or raises. *)
Fixpoint yielded (it : list glob_event) : list string :=
  match it with
  | Yield file_path :: rest => file_path :: yielded rest
  | _ => []
  end.

(** The exception a traversal raises when it is run to its end, if any. *)
Fixpoint raised (it : list glob_event) : option string :=
  match it with
  | [] => None
  | Raise e :: _ => Some e
  | Yield _ :: rest => raised rest
  end.

Definition is_print (e : event) : bool :=
  match e with
  | Print _ => true
  | _ => false
  end.

(** [tr'] continues [tr] with console output only. *)
Definition only_prints (tr tr' : list event) : Prop :=
  exists out, tr' = (tr ++ out)%list /\ forallb is_print out = true.

(** The [shutil.move] calls of a trace, in order. *)
Fixpoint moves (tr : list event) : list (string * string) :=
  match tr with
  | [] => []
  | Move src dst :: rest => (src, dst) :: moves rest
  | _ :: rest => moves rest
  end.


Section Vocabulary.

Context {P : Platform}.

(** The pattern [find_files] hands to [glob.iglob] (line 57). *)
Definition search_pattern (file_extension search_path : string) : string :=
  path_join search_path ("**/*." ++ clean_extension file_extension).

(** The matching paths of a tree, in traversal order. *)
Definition matching (file_extension search_path : string) (w : World) : list string :=
  yielded (iglob (fs w) (search_pattern file_extension search_path)).

(** The traversal of a tree runs to its end without raising. *)
Definition traversal_raises (file_extension search_path : string) (w : World) : option string :=
  raised (iglob (fs w) (search_pattern file_extension search_path)).

(** The reading of the first-fifty property with no side condition: the
    result is the list of the absolute paths of the first [max_found]
    matching files, whatever their number. *)
Definition returns_first_matches (file_extension search_path : string) (w : World) : Prop :=
  fst (find_files file_extension search_path w)
  = map abspath (firstn max_found (matching file_extension search_path w)).

(** A found file that line 115 does not skip. *)
Definition outside (target_dir file_path : string) : bool :=
  negb (String.eqb (dirname file_path) (abspath target_dir)).

(** The world in which [find_files] starts its traversal: the one it was
    called in, after its first one or two lines of output. *)
Definition announced (file_extension search_path : string) (w : World) : World :=
  let w := print (PyStr.nl ++ "[Robot] Searching for '" ++ file_extension
                  ++ "' files in '" ++ search_path ++ "'...") w in
  if PyStr.endswith (PyStr.rstrip separators search_path) ":" then
    print ("[Robot] Warning: Scanning entire drive " ++ search_path
           ++ ". This might take a while.") w
  else w.

(** The state after the attempt to move [file_path] to [destination]. *)
Definition moved_to (file_path destination : string) (st : MoveState) : MoveState :=
  let w := emit (Move file_path destination) (world st) in
  match move (fs w) file_path destination with
  | (fs', None) =>
      match print_raises ("  Moved: " ++ basename file_path) with
      | None =>
          {| moved_count := moved_count st + 1;
             errors := errors st;
             world := print ("  Moved: " ++ basename file_path) (mkWorld fs' (trace w)) |}
      | Some e =>
          {| moved_count := moved_count st + 1;
             errors := list_append (errors st)
                         ("Failed to move " ++ basename file_path ++ ": " ++ e);
             world := mkWorld fs' (trace w) |}
      end
  | (fs', Some e) =>
      {| moved_count := moved_count st;
         errors := list_append (errors st)
                     ("Failed to move " ++ basename file_path ++ ": " ++ e);
         world := mkWorld fs' (trace w) |}
  end.

End Vocabulary.

(** The reading of the extension invariant with no side condition. *)
Definition extension_nonempty (file_extension : string) : Prop :=
  clean_extension file_extension <> "".

Section SessionVocabulary.

Context {D : Dispatcher}.




End SessionVocabulary.

(** ** A small platform to run the definitions on *)

Module Demo.

(** A flat file system: the existing paths with their content, in the
    order a traversal meets them. *)
Definition Files : Type := list (string * string).

Definition content (files : Files) (p : string) : option string :=
  match find (fun entry => String.eqb (fst entry) p) files with
  | Some entry => Some (snd entry)
  | None => None
  end.

Definition delete (p : string) (files : Files) : Files :=
  filter (fun entry => negb (String.eqb (fst entry) p)) files.

(** The two sides of the last occurrence of [sep] in [s]. *)
Fixpoint rsplit (sep : ascii) (s : string) : option (string * string) :=
  match s with
  | EmptyString => None
  | String c s' =>
      match rsplit sep s' with
      | Some (l, r) => Some (String c l, r)
      | None => if Ascii.eqb c sep then Some (EmptyString, s') else None
      end
  end.

(** The part of [s] before the first occurrence of [sep]. *)
Fixpoint before (sep : ascii) (s : string) : string :=
  match s with
  | EmptyString => EmptyString
  | String c s' => if Ascii.eqb c sep then EmptyString else String c (before sep s')
  end.

(** A pattern [root/**/*.ext] matches the paths that start with what
    precedes its first star and end with what follows its last. *)
Definition glob_match (pattern p : string) : bool :=
  PyStr.startswith p (before "*" pattern)
  && match rsplit "*" pattern with
     | Some (_, suffix) => PyStr.endswith p suffix
     | None => String.eqb p pattern
     end.

Definition flat : Platform := {|
  FS := Files;
  abspath := fun p => p;
  path_join := fun a b => a ++ "/" ++ b;
  dirname := fun p => match rsplit "/" p with Some (d, _) => d | None => EmptyString end;
  basename := fun p => match rsplit "/" p with Some (_, b) => b | None => p end;
  splitext := fun f =>
    match rsplit "." f with
    | Some (b, e) => (b, String "." e)
    | None => (f, EmptyString)
    end;
  iglob := fun files pattern => map Yield (filter (glob_match pattern) (map fst files));
  path_exists := fun files p => PyStr.mem p (map fst files);
  makedirs := fun files p =>
    if PyStr.mem p (map fst files) then (files, Some ("File exists: " ++ p))
    else ((files ++ [(p, EmptyString)])%list, None);
  move := fun files src dst =>
    match content files src with
    | Some c => ((delete src files ++ [(dst, c)])%list, None)
    | None => (files, Some ("No such file or directory: " ++ src))
    end;
  print_raises := fun _ => None
|}.

(** A platform whose traversal raises after its first match. *)
Definition failing : Platform := {|
  FS := Files;
  abspath := @abspath flat;
  path_join := @path_join flat;
  dirname := @dirname flat;
  basename := @basename flat;
  splitext := @splitext flat;
  iglob := fun files pattern =>
    (firstn 1 (@iglob flat files pattern) ++ [Raise "Permission denied"])%list;
  path_exists := @path_exists flat;
  makedirs := @makedirs flat;
  move := @move flat;
  print_raises := @print_raises flat
|}.

(** A dispatcher that plays a script: one outcome per call, then a fixed reply. *)
Definition scripted : Dispatcher := {|
  Chat := list (string + string);
  send_message := fun chat _ =>
    match chat with
    | [] => (inl "ok", [])
    | r :: rest => (r, rest)
    end
|}.

(** A tree with two text files below the root [/r]. *)
Definition two_files : Files :=
  [ ("/r/a.txt", "alpha"); ("/r/sub/b.txt", "beta"); ("/r/c.pdf", "gamma") ].

(** A tree whose archive already holds an [a.txt]. *)
Definition with_archive : Files :=
  [ ("/r/Archive", EmptyString); ("/r/Archive/a.txt", "old"); ("/r/sub/a.txt", "new") ].

(** The first tree after its text files were moved to [/r/Archive]. *)
Definition organized : Files :=
  [ ("/r/c.pdf", "gamma"); ("/r/Archive", EmptyString);
    ("/r/Archive/a.txt", "alpha"); ("/r/Archive/b.txt", "beta") ].

Definition start (files : Files) : @World flat := @mkWorld flat files [].

End Demo.


(** ** More vocabulary *)

(** The seconds a trace sleeps in all. *)
Fixpoint slept (tr : list event) : nat :=
  match tr with
  | [] => 0
  | Sleep seconds :: rest => seconds + slept rest
  | _ :: rest => slept rest
  end.

(** The texts a trace sends to the dispatcher, in order. *)
Fixpoint sent (tr : list event) : list string :=
  match tr with
  | [] => []
  | Send user_input :: rest => user_input :: sent rest
  | _ :: rest => sent rest
  end.

(** The calls of a trace that change the file system, in order. *)
Fixpoint fs_calls (tr : list event) : list event :=
  match tr with
  | [] => []
  | MakeDirs path :: rest => MakeDirs path :: fs_calls rest
  | Move src dst :: rest => Move src dst :: fs_calls rest
  | _ :: rest => fs_calls rest
  end.

(** The number of times a trace prompts for input. *)
Fixpoint asked (tr : list event) : nat :=
  match tr with
  | [] => 0
  | Ask _ :: rest => S (asked rest)
  | _ :: rest => asked rest
  end.

(** The test of line 159. *)
Definition is_exit (user_input : string) : bool :=
  PyStr.mem (PyStr.lower user_input) ["exit"; "quit"].

(** The inputs the session reads before its first exit command. *)
Fixpoint before_exit (stdin : list string) : list string :=
  match stdin with
  | [] => []
  | user_input :: rest => if is_exit user_input then [] else user_input :: before_exit rest
  end.

Section MoreVocabulary.

Context {P : Platform}.

(** The console output of [find_files] after its first line or two:
    the cap notice when the cap is reached, and the count when a list of
    paths is returned. *)
Definition search_report (file_extension search_path : string) (w : World) : list event :=
  let ys := matching file_extension search_path w in
  let count := Print ("[Robot] Found " ++ PyStr.str (Nat.min (length ys) max_found)
                      ++ " files.") in
  if (max_found <=? length ys)%nat then
    [ Print "[Robot] Found 50+ files, stopping search to keep output manageable."; count ]
  else
    match traversal_raises file_extension search_path w, ys with
    | None, _ :: _ => [count]
    | _, _ => []
    end.

(** A name directly inside the target directory that line 119 or line 126
    can give a file. *)
Definition name_in_target (target_dir file_path destination : string) : Prop :=
  destination = path_join target_dir (basename file_path)
  \/ exists k, 1 <= k
               /\ destination
                  = candidate target_dir (fst (splitext (basename file_path)))
                      (snd (splitext (basename file_path))) k.

(** The state after a move of [file_path] that succeeded and left the
    file system [fs']: counted and announced. *)
Definition after_moved (st : MoveState) (file_path destination : string) (fs' : FS)
    : MoveState :=
  {| moved_count := moved_count st + 1;
     errors := errors st;
     world := print ("  Moved: " ++ basename file_path)
                (mkWorld fs' (list_append (trace (world st)) (Move file_path destination))) |}.

(** The state after a move of [file_path] that raised [e] and left the
    file system [fs']: recorded as an error. *)
Definition after_failed (st : MoveState) (file_path destination : string) (fs' : FS)
    (e : string) : MoveState :=
  {| moved_count := moved_count st;
     errors := list_append (errors st)
                 ("Failed to move " ++ basename file_path ++ ": " ++ e);
     world := mkWorld fs' (list_append (trace (world st)) (Move file_path destination)) |}.

(** [handled target_dir files st st']: from [st], every file of [files] is
    dealt with in turn, in exactly one of three ways, and [st'] is left.
    A file in the target directory is skipped and changes nothing.  For a
    file outside, [move] is called on the file system as the files before
    it left it, with a free name in the target directory; when the call
    succeeds the file is counted as moved, when it raises the error is
    recorded; either way the next file is dealt with. *)
Inductive handled (target_dir : string) : list string -> MoveState -> MoveState -> Prop :=
| handled_none st : handled target_dir [] st st
| handled_skipped file_path files st st' :
    outside target_dir file_path = false ->
    handled target_dir files st st' ->
    handled target_dir (file_path :: files) st st'
| handled_moved file_path files st st' destination fs' :
    outside target_dir file_path = true ->
    path_exists (fs (world st)) destination = false ->
    name_in_target target_dir file_path destination ->
    move (fs (world st)) file_path destination = (fs', None) ->
    handled target_dir files (after_moved st file_path destination fs') st' ->
    handled target_dir (file_path :: files) st st'
| handled_failed file_path files st st' destination fs' e :
    outside target_dir file_path = true ->
    path_exists (fs (world st)) destination = false ->
    name_in_target target_dir file_path destination ->
    move (fs (world st)) file_path destination = (fs', Some e) ->
    handled target_dir files (after_failed st file_path destination fs' e) st' ->
    handled target_dir (file_path :: files) st st'.

End MoreVocabulary.

(** What the session adds to its trace for one line of input that is not
    an exit command, after the prompt: between one and [max_retries] calls
    of the dispatcher, each with that line, at most 60 seconds of sleep,
    and no further prompt. *)
Definition answers (user_input : string) (part : list event) : Prop :=
  exists n,
    1 <= n <= max_retries
    /\ sent part = repeat user_input n
    /\ slept part <= 60
    /\ asked part = 0.

(** ** A platform that refuses every change *)

Module ReadOnly.

Definition platform : Platform := {|
  FS := Demo.Files;
  abspath := @abspath Demo.flat;
  path_join := @path_join Demo.flat;
  dirname := @dirname Demo.flat;
  basename := @basename Demo.flat;
  splitext := @splitext Demo.flat;
  iglob := @iglob Demo.flat;
  path_exists := @path_exists Demo.flat;
  makedirs := fun files p => (files, Some ("Read-only file system: " ++ p));
  move := fun files src dst => (files, Some ("Read-only file system: " ++ src));
  print_raises := @print_raises Demo.flat
|}.

End ReadOnly.

(** ** A console that encodes ASCII only *)

Module Strict.

Fixpoint is_ascii (s : string) : bool :=
  match s with
  | EmptyString => true
  | String c s' => (nat_of_ascii c <? 128)%nat && is_ascii s'
  end.

(** The flat platform with a console that refuses a line with a byte
    above 127. *)
Definition platform : Platform := {|
  FS := Demo.Files;
  abspath := @abspath Demo.flat;
  path_join := @path_join Demo.flat;
  dirname := @dirname Demo.flat;
  basename := @basename Demo.flat;
  splitext := @splitext Demo.flat;
  iglob := @iglob Demo.flat;
  path_exists := @path_exists Demo.flat;
  makedirs := @makedirs Demo.flat;
  move := @move Demo.flat;
  print_raises := fun line =>
    if is_ascii line then None
    else Some "'ascii' codec can't encode character: ordinal not in range(128)"
|}.

(** A file name with the byte 233. *)
Definition odd_name : string := "caf" ++ String (ascii_of_nat 233) ".txt".

(** A tree with an archive and one text file, of that name. *)
Definition tree : Demo.Files :=
  [ ("/r/Archive", EmptyString); ("/r/sub/" ++ odd_name, "menu") ].

End Strict.


(** * Properties *)

(** ** Strings *)

Lemma append_nil_r (s : string) : s ++ "" = s.
Proof. induction s as [|c s IH]; simpl; [reflexivity | now rewrite IH]. Qed.

Lemma append_inv_head (p a b : string) : p ++ a = p ++ b -> a = b.
Proof.
  induction p as [|c p IH]; simpl; intros H; [exact H |].
  injection H as H. now apply IH.
Qed.

Lemma length_append (a b : string) :
  String.length (a ++ b) = String.length a + String.length b.
Proof. induction a as [|c a IH]; simpl; [reflexivity | now rewrite IH]. Qed.

Lemma append_inv_tail (a b t : string) : a ++ t = b ++ t -> a = b.
Proof.
  revert b. induction a as [|c a IH]; intros [|d b] H; simpl in H.
  - reflexivity.
  - apply (f_equal String.length) in H. simpl in H.
    rewrite length_append in H. lia.
  - apply (f_equal String.length) in H. simpl in H.
    rewrite length_append in H. lia.
  - injection H as -> H. f_equal. now apply IH.
Qed.

(** [str] never prints two numbers alike. *)
Lemma str_inj (j k : nat) : PyStr.str j = PyStr.str k -> j = k.
Proof.
  unfold PyStr.str. intros H.
  apply DecimalNat.Unsigned.to_uint_inj.
  apply (f_equal NilEmpty.uint_of_string) in H.
  rewrite !NilEmpty.usu in H. now injection H.
Qed.

(** The names of line 126 differ when their counters do. *)
Lemma suffixed_name_inj (base extension : string) (j k : nat) :
  base ++ "_" ++ PyStr.str j ++ extension = base ++ "_" ++ PyStr.str k ++ extension ->
  j = k.
Proof.
  intros H. apply append_inv_head in H. apply (append_inv_head "_") in H.
  apply append_inv_tail in H. now apply str_inj.
Qed.

Lemma lower_ascii_dot (c : ascii) : PyStr.lower_ascii c = "."%char <-> c = "."%char.
Proof.
  split.
  - destruct c as [[] [] [] [] [] [] [] []]; vm_compute; congruence.
  - intros ->. reflexivity.
Qed.

(** ** The search loop *)

Section FindFacts.

Context {P : Platform}.

Lemma fs_print (line : string) (w : World) : fs (print line w) = fs w.
Proof. reflexivity. Qed.

Lemma only_prints_refl (tr : list event) : only_prints tr tr.
Proof. exists []. split; [now rewrite app_nil_r | reflexivity]. Qed.

Lemma only_prints_trans (a b c : list event) :
  only_prints a b -> only_prints b c -> only_prints a c.
Proof.
  intros [o1 [-> H1]] [o2 [-> H2]]. exists (o1 ++ o2)%list.
  split; [now rewrite app_assoc | rewrite forallb_app, H1, H2; reflexivity].
Qed.

Lemma only_prints_print (line : string) (w : World) :
  only_prints (trace w) (trace (print line w)).
Proof. exists [Print line]. split; reflexivity. Qed.

(** The loop leaves the file system alone and only writes to the console. *)
Lemma find_loop_frame (it : list glob_event) (found_files : list string)
    (count : nat) (w : World) :
  fs (after (find_loop it found_files count w)) = fs w
  /\ only_prints (trace w) (trace (after (find_loop it found_files count w))).
Proof.
  revert found_files count.
  induction it as [|[file_path|e] rest IH]; intros found_files count;
    cbn [find_loop after].
  - split; [reflexivity | apply only_prints_refl].
  - destruct (max_found <=? count + 1)%nat; cbn [after].
    + split; [reflexivity | apply only_prints_print].
    + apply IH.
  - split; [reflexivity | apply only_prints_refl].
Qed.

(** What the loop returns, from any point below the cap: with enough
    matches left it stops at the cap, whatever follows in the traversal;
    otherwise it runs the traversal to its end or to its exception. *)
Lemma find_loop_spec (it : list glob_event) (found_files : list string)
    (count : nat) (w : World) :
  count < max_found ->
  let r := find_loop it found_files count w in
  if (max_found - count <=? length (yielded it))%nat then
    outcome r = inr (found_files ++ map abspath (firstn (max_found - count) (yielded it)))%list
    /\ taken r = max_found
  else
    outcome r = match raised it with
                | Some e => inl e
                | None => inr (found_files ++ map abspath (yielded it))%list
                end
    /\ taken r = count + length (yielded it)
    /\ after r = w.
Proof.
  revert found_files count.
  induction it as [|[file_path|e] rest IH]; intros found_files count Hc;
    cbn [find_loop yielded raised length map outcome taken after].
  - destruct (Nat.leb_spec (max_found - count) 0) as [E|E]; [lia |].
    rewrite app_nil_r, Nat.add_0_r. auto.
  - destruct (Nat.leb_spec max_found (count + 1)) as [E|E];
      cbn [outcome taken after].
    + assert (Hd : max_found - count = 1) by lia. rewrite Hd.
      cbn [Nat.leb firstn map]. split; [reflexivity | lia].
    + specialize (IH (list_append found_files (abspath file_path)) (count + 1) E).
      cbv zeta in IH.
      assert (Hd : max_found - count = S (max_found - (count + 1))) by lia.
      rewrite Hd. cbn [Nat.leb firstn map].
      destruct (max_found - (count + 1) <=? length (yielded rest))%nat.
      * destruct IH as [Ho Ht]. rewrite Ho, Ht. unfold list_append.
        rewrite <- app_assoc. auto.
      * destruct IH as [Ho [Ht Ha]]. rewrite Ho, Ht, Ha. unfold list_append.
        split; [|split; [lia | reflexivity]].
        destruct (raised rest); [reflexivity |].
        rewrite <- app_assoc. reflexivity.
  - destruct (Nat.leb_spec (max_found - count) 0) as [E|E]; [lia |].
    rewrite Nat.add_0_r. auto.
Qed.

Lemma announced_frame (file_extension search_path : string) (w : World) :
  fs (announced file_extension search_path w) = fs w
  /\ only_prints (trace w) (trace (announced file_extension search_path w)).
Proof.
  unfold announced.
  destruct (PyStr.endswith (PyStr.rstrip separators search_path) ":").
  - split; [reflexivity |].
    eapply only_prints_trans; [apply only_prints_print |].
    apply (only_prints_print _ (print _ w)).
  - split; [reflexivity | apply only_prints_print].
Qed.

(** [find_files] is its loop, run on the traversal of the search pattern,
    followed by the choice of lines 69-76. *)
Lemma find_files_unfold (file_extension search_path : string) (w : World) :
  find_files file_extension search_path w =
  let r := find_loop (iglob (fs w) (search_pattern file_extension search_path)) [] 0
             (announced file_extension search_path w) in
  match outcome r with
  | inl e => (["Error during search: " ++ e], after r)
  | inr [] =>
      (["No files with extension ." ++ clean_extension file_extension
        ++ " found in " ++ search_path], after r)
  | inr found_files =>
      (found_files,
       print ("[Robot] Found " ++ PyStr.str (length found_files) ++ " files.") (after r))
  end.
Proof.
  unfold find_files, announced, search_pattern.
  destruct (PyStr.endswith (PyStr.rstrip separators search_path) ":"); reflexivity.
Qed.

(** The list [find_files] returns, by the length of the traversal. *)
Lemma find_files_list (file_extension search_path : string) (w : World) :
  fst (find_files file_extension search_path w) =
  if (max_found <=? length (matching file_extension search_path w))%nat then
    map abspath (firstn max_found (matching file_extension search_path w))
  else
    match traversal_raises file_extension search_path w with
    | Some e => ["Error during search: " ++ e]
    | None =>
        match matching file_extension search_path w with
        | [] => ["No files with extension ." ++ clean_extension file_extension
                 ++ " found in " ++ search_path]
        | ys => map abspath ys
        end
    end.
Proof.
  rewrite find_files_unfold. cbv zeta.
  unfold matching, traversal_raises.
  set (it := iglob (fs w) (search_pattern file_extension search_path)).
  assert (H0 : 0 < max_found) by (unfold max_found; lia).
  pose proof (find_loop_spec it [] 0 (announced file_extension search_path w) H0) as H.
  cbv zeta in H. rewrite Nat.sub_0_r in H.
  destruct (max_found <=? length (yielded it))%nat eqn:E.
  - destruct H as [Ho _]. rewrite Ho. cbn [app].
    apply Nat.leb_le in E.
    destruct (yielded it) as [|y ys]; [cbn in E; unfold max_found in E; lia |].
    unfold max_found. reflexivity.
  - destruct H as [Ho _]. rewrite Ho.
    destruct (raised it); [reflexivity |]. cbn [app].
    destruct (yielded it); reflexivity.
Qed.

(** [find_files] leaves the file system as it was and only writes to the console. *)
Lemma find_files_frame (file_extension search_path : string) (w : World) :
  fs (snd (find_files file_extension search_path w)) = fs w
  /\ only_prints (trace w) (trace (snd (find_files file_extension search_path w))).
Proof.
  rewrite find_files_unfold. cbv zeta.
  destruct (announced_frame file_extension search_path w) as [Hf Ht].
  destruct (find_loop_frame (iglob (fs w) (search_pattern file_extension search_path))
              [] 0 (announced file_extension search_path w)) as [Hf' Ht'].
  destruct (outcome _) as [e|[|f l]]; cbn [snd].
  - split; [congruence | eapply only_prints_trans; eassumption].
  - split; [congruence | eapply only_prints_trans; eassumption].
  - split; [rewrite fs_print; congruence |].
    eapply only_prints_trans; [exact Ht |].
    eapply only_prints_trans; [exact Ht' | apply only_prints_print].
Qed.

(** The list depends on the file system alone, not on what was printed before. *)
Lemma find_files_list_ext (file_extension search_path : string) (w w' : World) :
  fs w = fs w' ->
  fst (find_files file_extension search_path w)
  = fst (find_files file_extension search_path w').
Proof.
  intros H. rewrite !find_files_list. unfold matching, traversal_raises.
  now rewrite H.
Qed.

(** The list is never empty. *)
Lemma find_files_nonempty (file_extension search_path : string) (w : World) :
  fst (find_files file_extension search_path w) <> [].
Proof.
  rewrite find_files_list.
  destruct (Nat.leb_spec max_found (length (matching file_extension search_path w)))
    as [E|E].
  - destruct (matching file_extension search_path w);
      [cbn in E; unfold max_found in E; lia | unfold max_found; discriminate].
  - destruct (traversal_raises file_extension search_path w); [discriminate |].
    destruct (matching file_extension search_path w); discriminate.
Qed.

End FindFacts.

(** ** The file finder *)

Section FindClaims.

Context {P : Platform}.

(** C1 (amended).  When the traversal of the search pattern yields N >= 1
    paths and raises nothing before the cap is reached, [find_files]
    returns the absolute paths of the first 50 of them in traversal order:
    all N when N <= 50, exactly 50 when N > 50; and its loop takes
    min(N, 50) elements from the traversal, so no 51st is asked for. *)
Theorem find_files_first_matches (file_extension search_path : string) (w : World) :
  let ys := matching file_extension search_path w in
  1 <= length ys ->
  traversal_raises file_extension search_path w = None \/ max_found <= length ys ->
  fst (find_files file_extension search_path w) = map abspath (firstn max_found ys)
  /\ (length ys <= max_found ->
      fst (find_files file_extension search_path w) = map abspath ys)
  /\ length (fst (find_files file_extension search_path w)) = Nat.min (length ys) max_found
  /\ forall w',
       taken (find_loop (iglob (fs w) (search_pattern file_extension search_path)) [] 0 w')
       = Nat.min (length ys) max_found.
Proof.
  intros ys H1 Hr.
  assert (Hfst : fst (find_files file_extension search_path w)
                 = map abspath (firstn max_found ys)).
  { rewrite find_files_list. fold ys.
    destruct (Nat.leb_spec max_found (length ys)) as [E|E]; [reflexivity |].
    destruct Hr as [Hr|Hr]; [| lia]. rewrite Hr.
    rewrite firstn_all2 by lia.
    destruct ys; [cbn in H1; lia | reflexivity]. }
  split; [exact Hfst |]. split; [| split].
  - intros Hle. rewrite Hfst. now rewrite firstn_all2.
  - rewrite Hfst, length_map, length_firstn. lia.
  - intros w'.
    assert (H0 : 0 < max_found) by (unfold max_found; lia).
    pose proof (find_loop_spec (iglob (fs w) (search_pattern file_extension search_path))
                  [] 0 w' H0) as H.
    cbv zeta in H. rewrite Nat.sub_0_r in H. fold (matching file_extension search_path w) in H.
    fold ys in H.
    destruct (Nat.leb_spec max_found (length ys)) as [E|E].
    + destruct H as [_ Ht]. rewrite Ht. lia.
    + destruct H as [_ [Ht _]]. rewrite Ht. lia.
Qed.

(** C6.  When the traversal of the search pattern yields no path and
    raises nothing, [find_files] returns a list of one element, a message
    that starts with "No files with extension". *)
Theorem find_files_no_match (file_extension search_path : string) (w : World) :
  matching file_extension search_path w = [] ->
  traversal_raises file_extension search_path w = None ->
  fst (find_files file_extension search_path w)
  = ["No files with extension ." ++ clean_extension file_extension
     ++ " found in " ++ search_path]
  /\ exists s, fst (find_files file_extension search_path w) = [s]
               /\ PyStr.startswith s "No files with extension" = true.
Proof.
  intros Hm Hr.
  assert (H : fst (find_files file_extension search_path w)
              = ["No files with extension ." ++ clean_extension file_extension
                 ++ " found in " ++ search_path]).
  { rewrite find_files_list, Hm, Hr. reflexivity. }
  split; [exact H |]. eexists. split; [exact H | reflexivity].
Qed.

(** C7.  When the traversal raises before the cap is reached, the
    exception is caught: [find_files] returns a list of one element, the
    text of the exception after "Error during search: "; the file system is
    as before and the trace has grown by console output only. *)
Theorem find_files_traversal_error (file_extension search_path : string)
    (w : World) (e : string) :
  traversal_raises file_extension search_path w = Some e ->
  length (matching file_extension search_path w) < max_found ->
  fst (find_files file_extension search_path w) = ["Error during search: " ++ e]
  /\ PyStr.startswith ("Error during search: " ++ e) "Error during search:" = true
  /\ fs (snd (find_files file_extension search_path w)) = fs w
  /\ only_prints (trace w) (trace (snd (find_files file_extension search_path w))).
Proof.
  intros Hr Hlt. split; [| split; [reflexivity | apply find_files_frame]].
  rewrite find_files_list, Hr.
  destruct (Nat.leb_spec max_found (length (matching file_extension search_path w)));
    [lia | reflexivity].
Qed.

End FindClaims.

(** C9 (amended).  The cleaned extension is non-empty exactly when the
    extension that was passed holds a character other than the dot: the
    empty string and strings of dots are cleaned to the empty string. *)
Theorem clean_extension_nonempty_iff (file_extension : string) :
  clean_extension file_extension <> ""
  <-> exists c, In c (list_ascii_of_string file_extension) /\ c <> "."%char.
Proof.
  unfold clean_extension.
  induction file_extension as [|c s IH]; cbn [PyStr.lower PyStr.lstrip list_ascii_of_string].
  - split; [congruence | intros [c [[] _]]].
  - cbn [PyStr.mem_ascii]. rewrite orb_false_r.
    destruct (Ascii.eqb_spec (PyStr.lower_ascii c) "."%char) as [E|E].
    + apply (proj1 (lower_ascii_dot c)) in E. subst c. rewrite IH. split.
      * intros [c [Hin Hc]]. exists c. split; [right; exact Hin | exact Hc].
      * intros [c [[Hin|Hin] Hc]]; [congruence | exists c; auto].
    + split; [intros _ | discriminate].
      exists c. split; [left; reflexivity |].
      intros ->. apply E. reflexivity.
Qed.

(** ** The file organizer *)

Lemma moves_app (a b : list event) : moves (a ++ b) = (moves a ++ moves b)%list.
Proof.
  induction a as [|e a IH]; [reflexivity |].
  destruct e; cbn [app moves]; rewrite ?IH; reflexivity.
Qed.

Lemma moves_only_prints (tr tr' : list event) :
  only_prints tr tr' -> moves tr' = moves tr.
Proof.
  intros [out [-> H]]. rewrite moves_app.
  assert (E : moves out = []).
  { induction out as [|e out IH]; [reflexivity |].
    destruct e; cbn in H |- *; try discriminate; auto. }
  now rewrite E, app_nil_r.
Qed.

Section OrganizeFacts.

Context {P : Platform}.

Lemma is_sentinel_cons (first : string) (rest : list string) :
  is_sentinel (first :: rest)
  = Some (PyStr.startswith first "Error" || PyStr.startswith first "No files").
Proof.
  unfold is_sentinel. cbn [hd_error].
  destruct (PyStr.startswith first "Error"); reflexivity.
Qed.

(** The world in which [organize_files] reads the result of its search. *)
Lemma organize_files_search (file_extension source_path : string) (w w0 : World) :
  fs w0 = fs w -> only_prints (trace w) (trace w0) ->
  exists w1,
    find_files file_extension source_path w0
    = (fst (find_files file_extension source_path w), w1)
    /\ fs w1 = fs w /\ only_prints (trace w) (trace w1).
Proof.
  intros Hf Ht.
  exists (snd (find_files file_extension source_path w0)).
  destruct (find_files_frame file_extension source_path w0) as [Hf' Ht'].
  split; [| split].
  - rewrite <- (find_files_list_ext file_extension source_path w0 w Hf).
    now destruct (find_files file_extension source_path w0).
  - congruence.
  - eapply only_prints_trans; eassumption.
Qed.

(** A file that sits in the target directory leaves the state as it is. *)
Lemma move_one_skip (fuel : nat) (target_dir file_path : string) (st : MoveState) :
  outside target_dir file_path = false ->
  move_one fuel target_dir file_path st = Some st.
Proof.
  unfold outside, move_one. intros H. apply negb_false_iff in H. now rewrite H.
Qed.

Lemma move_files_filter (fuel : nat) (target_dir : string) (files : list string)
    (st : MoveState) :
  move_files fuel target_dir files st
  = move_files fuel target_dir (filter (outside target_dir) files) st.
Proof.
  revert st. induction files as [|f files IH]; intros st; [reflexivity |].
  cbn [filter]. destruct (outside target_dir f) eqn:E; cbn [move_files].
  - destruct (move_one fuel target_dir f st); [apply IH | reflexivity].
  - rewrite (move_one_skip _ _ _ _ E). apply IH.
Qed.

(** The [while] loop returns the first free name: from a taken
    destination and counter [c], when the names of the counters [c] to
    [c + k - 1] are taken and that of [c + k] is free. *)
Lemma resolve_collision_first_free (k : nat) :
  forall (fuel : nat) (fs0 : FS) (target_dir base extension destination : string)
         (c : nat),
    path_exists fs0 destination = true ->
    (forall j, c <= j < c + k ->
               path_exists fs0 (candidate target_dir base extension j) = true) ->
    path_exists fs0 (candidate target_dir base extension (c + k)) = false ->
    k + 1 < fuel ->
    resolve_collision fuel fs0 target_dir base extension destination c
    = Some (candidate target_dir base extension (c + k)).
Proof.
  induction k as [|k IH]; intros fuel fs0 target_dir base extension destination c
    Hd Htaken Hfree Hfuel.
  - destruct fuel as [|[|fuel]]; try lia.
    cbn [resolve_collision]. rewrite Hd. rewrite Nat.add_0_r in *.
    now rewrite Hfree.
  - destruct fuel as [|fuel]; [lia |].
    cbn [resolve_collision]. rewrite Hd.
    replace (c + S k) with (c + 1 + k) in * by lia.
    apply IH.
    + apply Htaken. lia.
    + intros j Hj. apply Htaken. lia.
    + exact Hfree.
    + lia.
Qed.

(** In a file system with finitely many paths, and names that differ when
    their counters do, some counter is free, and so there is a first. *)
Lemma first_free_counter (fs0 : FS) (target_dir base extension : string)
    (known : list string) :
  (forall p, path_exists fs0 p = true -> In p known) ->
  (forall j k, candidate target_dir base extension j
               = candidate target_dir base extension k -> j = k) ->
  exists k,
    (forall j, 1 <= j < 1 + k ->
               path_exists fs0 (candidate target_dir base extension j) = true)
    /\ path_exists fs0 (candidate target_dir base extension (1 + k)) = false.
Proof.
  intros Hfin Hinj.
  set (taken := fun j => path_exists fs0 (candidate target_dir base extension j)).
  assert (Hsearch : forall n,
             (exists k, k < n /\ (forall j, 1 <= j < 1 + k -> taken j = true)
                        /\ taken (1 + k) = false)
             \/ (forall j, 1 <= j < 1 + n -> taken j = true)).
  { induction n as [|n [[k [Hk H]]|IHn]].
    - right. intros j Hj. lia.
    - left. exists k. split; [lia | exact H].
    - destruct (taken (1 + n)) eqn:E.
      + right. intros j Hj. destruct (Nat.eq_dec j (1 + n)) as [->|]; [exact E |].
        apply IHn. lia.
      + left. exists n. split; [lia | split; [exact IHn | exact E]]. }
  destruct (Hsearch (S (length known))) as [[k [_ H]]|Hall]; [exists k; exact H |].
  exfalso.
  assert (Hnd : NoDup (map (candidate target_dir base extension)
                           (seq 1 (S (length known))))).
  { apply Injective_map_NoDup; [exact Hinj | apply seq_NoDup]. }
  assert (Hincl : incl (map (candidate target_dir base extension)
                            (seq 1 (S (length known)))) known).
  { intros p Hp. apply in_map_iff in Hp. destruct Hp as [j [<- Hj]].
    apply in_seq in Hj. apply Hfin. apply Hall. lia. }
  pose proof (NoDup_incl_length Hnd Hincl) as Hlen.
  rewrite length_map, length_seq in Hlen. lia.
Qed.

(** The destination of a file is found with enough fuel, and it is free. *)
Lemma choose_destination_total (fs0 : FS) (target_dir filename : string)
    (known : list string) :
  (forall p, path_exists fs0 p = true -> In p known) ->
  (forall j k,
      candidate target_dir (fst (splitext filename)) (snd (splitext filename)) j
      = candidate target_dir (fst (splitext filename)) (snd (splitext filename)) k ->
      j = k) ->
  exists n destination,
    (forall fuel, n <= fuel ->
                  choose_destination fuel fs0 target_dir filename = Some destination)
    /\ path_exists fs0 destination = false.
Proof.
  intros Hfin Hinj. unfold choose_destination.
  destruct (path_exists fs0 (path_join target_dir filename)) eqn:E.
  - destruct (first_free_counter fs0 target_dir _ _ known Hfin Hinj) as [k [Ht Hf]].
    exists (k + 2), (candidate target_dir (fst (splitext filename))
                       (snd (splitext filename)) (1 + k)).
    split; [| exact Hf].
    intros fuel Hfuel. destruct (splitext filename) as [base extension].
    cbn [fst snd] in *.
    apply resolve_collision_first_free; auto. lia.
  - exists 0, (path_join target_dir filename). split; [reflexivity | exact E].
Qed.

Lemma move_one_outside (fuel : nat) (target_dir file_path : string) (st : MoveState) :
  outside target_dir file_path = true ->
  move_one fuel target_dir file_path st
  = option_map (fun destination => moved_to file_path destination st)
      (choose_destination fuel (fs (world st)) target_dir (basename file_path)).
Proof.
  unfold outside, move_one, moved_to. intros H. apply negb_true_iff in H. rewrite H.
  destruct (choose_destination _ _ _ _) as [destination|]; [| reflexivity].
  cbn [option_map]. cbv zeta.
  destruct (move _ _ _) as [fs' [e|]]; [reflexivity |].
  destruct (print_raises _); reflexivity.
Qed.

(** One attempt calls [move] once. *)
Lemma moved_to_moves (file_path destination : string) (st : MoveState) :
  moves (trace (world (moved_to file_path destination st)))
  = (moves (trace (world st)) ++ [(file_path, destination)])%list.
Proof.
  unfold moved_to. cbv zeta.
  destruct (move _ _ _) as [fs' [e|]]; [| destruct (print_raises _)];
    cbn [world trace print emit]; unfold list_append; rewrite ?moves_app;
    cbn [moves]; rewrite ?app_nil_r; reflexivity.
Qed.

End OrganizeFacts.

Section OrganizeClaims.

Context {P : Platform}.

(** C2.  When the first entry of the list the search returns starts with
    "Error" or with "No files", [organize_files] returns that entry as its
    status, whatever the fuel; the file system is as before and the trace
    has grown by console output only: no directory was created, no file
    moved. *)
Theorem organize_files_returns_sentinel (fuel : nat)
    (file_extension source_path target_folder_name : string) (w : World)
    (first : string) (rest : list string) :
  fst (find_files file_extension source_path w) = first :: rest ->
  PyStr.startswith first "Error" = true \/ PyStr.startswith first "No files" = true ->
  exists w',
    organize_files fuel file_extension source_path target_folder_name w
    = Some (Return first, w')
    /\ fs w' = fs w
    /\ only_prints (trace w) (trace w')
    /\ moves (trace w') = moves (trace w).
Proof.
  intros Hfound Hs. unfold organize_files.
  destruct (organize_files_search file_extension source_path w
              (print (PyStr.nl ++ "[Robot] Organizing: Moving all '." ++ file_extension
                      ++ "' files from '" ++ source_path ++ "' to '"
                      ++ target_folder_name ++ "'...") w)
              eq_refl (only_prints_print _ w)) as [w1 [Hrun [Hf Ht]]].
  rewrite Hrun, Hfound, is_sentinel_cons.
  assert (E : PyStr.startswith first "Error" || PyStr.startswith first "No files" = true).
  { apply orb_true_iff. exact Hs. }
  rewrite E. cbn [hd_error].
  exists w1. split; [reflexivity |]. split; [exact Hf |]. split; [exact Ht |].
  now apply moves_only_prints.
Qed.

(** C8.  The test of line 97 raises on the empty list, but the list it is
    given is the result of [find_files], which is never empty: it is one
    message, or the absolute paths of at least one match.  So the test has
    a value and [organize_files] does not end in an index error. *)
Theorem organize_files_never_index_error (fuel : nat)
    (file_extension source_path target_folder_name : string) (w : World) :
  is_sentinel [] = None
  /\ (forall w0, fst (find_files file_extension source_path w0) <> [])
  /\ ((exists s, fst (find_files file_extension source_path w) = [s]
                 /\ (PyStr.startswith s "Error during search:" = true
                     \/ PyStr.startswith s "No files with extension" = true))
      \/ (matching file_extension source_path w <> []
          /\ fst (find_files file_extension source_path w)
             = map abspath (firstn max_found (matching file_extension source_path w))))
  /\ is_sentinel (fst (find_files file_extension source_path w)) <> None
  /\ forall w',
       organize_files fuel file_extension source_path target_folder_name w
       <> Some (IndexError, w').
Proof.
  split; [reflexivity |]. split; [intros w0; apply find_files_nonempty |].
  split.
  { rewrite find_files_list.
    destruct (Nat.leb_spec max_found (length (matching file_extension source_path w)))
      as [E|E].
    - right. split; [| reflexivity].
      intros H. rewrite H in E. cbn in E. unfold max_found in E. lia.
    - destruct (traversal_raises file_extension source_path w) as [e|].
      + left. eexists. split; [reflexivity | left; reflexivity].
      + destruct (matching file_extension source_path w) as [|y ys] eqn:Em.
        * left. eexists. split; [reflexivity | right; reflexivity].
        * right. split; [discriminate |]. rewrite firstn_all2; [reflexivity | lia]. }
  pose proof (find_files_nonempty file_extension source_path w) as Hne.
  split.
  - destruct (fst (find_files file_extension source_path w)) as [|f l];
      [congruence | rewrite is_sentinel_cons; discriminate].
  - intros w'. unfold organize_files.
    destruct (organize_files_search file_extension source_path w
                (print (PyStr.nl ++ "[Robot] Organizing: Moving all '." ++ file_extension
                        ++ "' files from '" ++ source_path ++ "' to '"
                        ++ target_folder_name ++ "'...") w)
                eq_refl (only_prints_print _ w)) as [w1 [Hrun _]].
    rewrite Hrun.
    destruct (fst (find_files file_extension source_path w)) as [|f l]; [congruence |].
    rewrite is_sentinel_cons. cbn [hd_error].
    destruct (PyStr.startswith f "Error" || PyStr.startswith f "No files");
      [discriminate |].
    destruct (ensure_target _ w1) as [w2 [e|]]; [discriminate |].
    destruct (move_files _ _ _ _); discriminate.
Qed.

(** C3.  A file outside the target directory whose destination name is
    taken is moved to the name with the first free counter: the names with
    the counters 1 to k - 1, suffixed before the extension, exist, that
    with k does not, and [move] is called once, with that name.  When a
    move to a free name changes no other path, the content at the original
    destination is what it was.  Hypotheses: the file system holds
    finitely many paths, names with different counters are different
    paths, and the moved file is not the one at the destination. *)
Theorem move_one_resolves_collision (content : FS -> string -> option string)
    (target_dir file_path : string) (st : MoveState) (known : list string) :
  let fs0 := fs (world st) in
  let filename := basename file_path in
  let destination := path_join target_dir filename in
  let name := candidate target_dir (fst (splitext filename)) (snd (splitext filename)) in
  (forall p, path_exists fs0 p = true -> In p known) ->
  (forall j k, name j = name k -> j = k) ->
  (forall dst p, path_exists fs0 dst = false -> p <> file_path -> p <> dst ->
                 content (fst (move fs0 file_path dst)) p = content fs0 p) ->
  outside target_dir file_path = true ->
  path_exists fs0 destination = true ->
  file_path <> destination ->
  exists k,
    1 <= k
    /\ (forall j, 1 <= j < k -> path_exists fs0 (name j) = true)
    /\ path_exists fs0 (name k) = false
    /\ name k = path_join target_dir
                  (fst (splitext filename) ++ "_" ++ PyStr.str k ++ snd (splitext filename))
    /\ forall fuel, k < fuel ->
         exists st',
           move_one fuel target_dir file_path st = Some st'
           /\ fs (world st') = fst (move fs0 file_path (name k))
           /\ moves (trace (world st'))
              = (moves (trace (world st)) ++ [(file_path, name k)])%list
           /\ content (fs (world st')) destination = content fs0 destination.
Proof.
  intros fs0 filename destination name Hfin Hinj Hframe Hout Hd Hne.
  destruct (first_free_counter fs0 target_dir _ _ known Hfin Hinj) as [k [Ht Hf]].
  fold name in Ht, Hf.
  exists (1 + k). split; [lia |]. split; [exact Ht |]. split; [exact Hf |].
  split; [reflexivity |].
  intros fuel Hfuel.
  assert (Hchoose : choose_destination fuel fs0 target_dir filename = Some (name (1 + k))).
  { unfold choose_destination. fold destination. rewrite Hd.
    unfold name. destruct (splitext filename) as [base extension]. cbn [fst snd] in *.
    apply resolve_collision_first_free; auto. lia. }
  exists (moved_to file_path (name (1 + k)) st).
  split.
  { rewrite (move_one_outside _ _ _ _ Hout). fold fs0 filename.
    rewrite Hchoose. reflexivity. }
  assert (Hfs : fs (world (moved_to file_path (name (1 + k)) st))
                = fst (move fs0 file_path (name (1 + k)))).
  { unfold moved_to. cbv zeta. cbn [emit fs]. fold fs0.
    destruct (move fs0 file_path (name (1 + k))) as [fs' [e|]]; [reflexivity |].
    destruct (print_raises _); reflexivity. }
  split; [exact Hfs |]. split; [apply moved_to_moves |].
  rewrite Hfs. apply Hframe; [exact Hf | congruence |].
  intros E. rewrite E in Hd. congruence.
Qed.

(** C5.  A found file whose directory is the resolved target directory is
    skipped: the state, with its count, its errors and its trace, is what
    it was, and the loop over the found files is the loop over those
    outside the target directory.  When the target directory exists and
    every found file is in it, as in a second call, [organize_files]
    reports zero moved files and no error, leaves the file system as it
    was and calls neither [makedirs] nor [move]. *)
Theorem organize_files_skips_target_files (fuel : nat)
    (file_extension source_path target_folder_name : string) (w : World) :
  let target_dir := path_join source_path target_folder_name in
  let found := fst (find_files file_extension source_path w) in
  is_sentinel found = Some false ->
  path_exists (fs w) target_dir = true ->
  (forall file_path st,
      In file_path found -> dirname file_path = abspath target_dir ->
      move_one fuel target_dir file_path st = Some st)
  /\ (forall st,
        move_files fuel target_dir found st
        = move_files fuel target_dir (filter (outside target_dir) found) st)
  /\ (Forall (fun file_path => dirname file_path = abspath target_dir) found ->
      exists w',
        organize_files fuel file_extension source_path target_folder_name w
        = Some (Return ("Successfully moved 0 files to " ++ target_dir ++ "."), w')
        /\ fs w' = fs w
        /\ only_prints (trace w) (trace w')).
Proof.
  intros target_dir found Hs He.
  split; [| split].
  - intros file_path st _ Hdir. apply move_one_skip.
    unfold outside. rewrite Hdir, String.eqb_refl. reflexivity.
  - intros st. apply move_files_filter.
  - intros Hall. unfold organize_files.
    destruct (organize_files_search file_extension source_path w
                (print (PyStr.nl ++ "[Robot] Organizing: Moving all '." ++ file_extension
                        ++ "' files from '" ++ source_path ++ "' to '"
                        ++ target_folder_name ++ "'...") w)
                eq_refl (only_prints_print _ w)) as [w1 [Hrun [Hf Ht]]].
    rewrite Hrun. fold found. rewrite Hs. fold target_dir.
    unfold ensure_target. rewrite Hf, He.
    rewrite move_files_filter.
    assert (E : filter (outside target_dir) found = []).
    { clear Hs. induction Hall as [|f l Hd _ IH]; [reflexivity |].
      cbn [filter]. unfold outside at 1. rewrite Hd, String.eqb_refl. exact IH. }
    rewrite E. cbn [move_files].
    exists w1. split; [reflexivity | split; assumption].
Qed.

End OrganizeClaims.

(** ** The session loop *)


Section SessionFacts.

Context {D : Dispatcher}.




End SessionFacts.

Section SessionClaims.

Context {D : Dispatcher}.


End SessionClaims.

(** ** The definitions at work on the small platform *)

Lemma mem_In (p : string) (l : list string) : PyStr.mem p l = true -> In p l.
Proof.
  unfold PyStr.mem. intros H. apply existsb_exists in H.
  destruct H as [q [Hin Heq]]. apply String.eqb_eq in Heq. now subst.
Qed.

Lemma flat_finite (files : Demo.Files) :
  exists known, forall p, @path_exists Demo.flat files p = true -> In p known.
Proof. exists (map fst files). intros p. apply mem_In. Qed.

Lemma flat_names_differ (d base extension : string) (j k : nat) :
  @candidate Demo.flat d base extension j = @candidate Demo.flat d base extension k ->
  j = k.
Proof.
  unfold candidate. cbn [path_join Demo.flat]. intros H.
  apply append_inv_head in H. apply (append_inv_head "/") in H.
  now apply suffixed_name_inj in H.
Qed.

Lemma content_app_other (files : Demo.Files) (dst c p : string) :
  p <> dst ->
  Demo.content (files ++ [(dst, c)])%list p = Demo.content files p.
Proof.
  intros Hne. unfold Demo.content.
  induction files as [|[q v] files IH]; cbn [app find fst snd].
  - destruct (String.eqb_spec dst p); [congruence | reflexivity].
  - destruct (String.eqb q p); [reflexivity | exact IH].
Qed.

Lemma content_delete_other (files : Demo.Files) (src p : string) :
  p <> src ->
  Demo.content (Demo.delete src files) p = Demo.content files p.
Proof.
  intros Hne. unfold Demo.content, Demo.delete.
  induction files as [|[q v] files IH]; cbn [filter find fst snd]; [reflexivity |].
  destruct (String.eqb_spec q src) as [->|Hq]; cbn [negb find fst snd].
  - destruct (String.eqb_spec src p); [congruence | exact IH].
  - destruct (String.eqb q p); [reflexivity | exact IH].
Qed.

(** On the flat file system a move changes the content at its source and
    at its destination only. *)
Lemma flat_move_frame (files : Demo.Files) (src dst p : string) :
  p <> src -> p <> dst ->
  Demo.content (fst (@move Demo.flat files src dst)) p = Demo.content files p.
Proof.
  intros Hs Hd. cbn [move Demo.flat].
  destruct (Demo.content files src); cbn [fst]; [| reflexivity].
  rewrite content_app_other by exact Hd. now apply content_delete_other.
Qed.

(** Two text files under [/r]: both are returned, in traversal order. *)
Lemma find_files_first_matches_witness :
  1 <= length (@matching Demo.flat "txt" "/r" (Demo.start Demo.two_files))
  /\ fst (@find_files Demo.flat "txt" "/r" (Demo.start Demo.two_files))
     = ["/r/a.txt"; "/r/sub/b.txt"].
Proof.
  split; [vm_compute; lia |].
  destruct (@find_files_first_matches Demo.flat "txt" "/r" (Demo.start Demo.two_files))
    as [H _]; [vm_compute; lia | left; reflexivity |].
  rewrite H. reflexivity.
Defined.

(** C1 as stated fails on a tree with no matching file: the result is a
    list of one message, not the empty list of paths. *)
Lemma find_files_empty_tree_returns_message :
  ~ @returns_first_matches Demo.flat "txt" "/r" (Demo.start []).
Proof. unfold returns_first_matches. vm_compute. discriminate. Qed.

(** No Markdown file under [/r]. *)
Lemma find_files_no_match_witness :
  @matching Demo.flat "md" "/r" (Demo.start Demo.two_files) = []
  /\ fst (@find_files Demo.flat "md" "/r" (Demo.start Demo.two_files))
     = ["No files with extension .md found in /r"].
Proof.
  split; [reflexivity |].
  apply (@find_files_no_match Demo.flat "md" "/r" (Demo.start Demo.two_files));
    reflexivity.
Defined.

(** A traversal that raises after its first match: the match is dropped. *)
Lemma find_files_traversal_error_witness :
  @traversal_raises Demo.failing "txt" "/r" (@mkWorld Demo.failing Demo.two_files [])
  = Some "Permission denied"
  /\ fst (@find_files Demo.failing "txt" "/r" (@mkWorld Demo.failing Demo.two_files []))
     = ["Error during search: Permission denied"].
Proof.
  split; [reflexivity |].
  apply (@find_files_traversal_error Demo.failing "txt" "/r"
           (@mkWorld Demo.failing Demo.two_files []) "Permission denied");
    [reflexivity | vm_compute; lia].
Defined.

(** C9 as stated fails on the extension ".": nothing is left of it. *)
Lemma clean_extension_of_dot_is_empty : ~ extension_nonempty ".".
Proof. unfold extension_nonempty. vm_compute. congruence. Qed.

(** Organizing Markdown files where there are none. *)
Lemma organize_files_returns_sentinel_witness :
  exists w',
    @organize_files Demo.flat 0 "md" "/r" "Archive" (Demo.start Demo.two_files)
    = Some (Return "No files with extension .md found in /r", w')
    /\ @fs Demo.flat w' = Demo.two_files
    /\ only_prints [] (@trace Demo.flat w')
    /\ moves (@trace Demo.flat w') = [].
Proof.
  apply (@organize_files_returns_sentinel Demo.flat 0 "md" "/r" "Archive"
           (Demo.start Demo.two_files) "No files with extension .md found in /r" []);
    [reflexivity | right; reflexivity].
Defined.

(** The archive holds an [a.txt]; the other [a.txt] becomes [a_1.txt] and
    the first keeps its content. *)
Lemma move_one_resolves_collision_witness :
  exists st',
    @move_one Demo.flat 2 "/r/Archive" "/r/sub/a.txt"
      (@mkMoveState Demo.flat 0 [] (Demo.start Demo.with_archive)) = Some st'
    /\ moves (@trace Demo.flat (@world Demo.flat st'))
       = [("/r/sub/a.txt", "/r/Archive/a_1.txt")]
    /\ Demo.content (@fs Demo.flat (@world Demo.flat st')) "/r/Archive/a.txt" = Some "old".
Proof.
  destruct (@move_one_resolves_collision Demo.flat Demo.content "/r/Archive" "/r/sub/a.txt"
              (@mkMoveState Demo.flat 0 [] (Demo.start Demo.with_archive))
              (map fst Demo.with_archive))
    as [k [Hk [Htaken [Hfree [_ Hrun]]]]].
  - intros p. apply mem_In.
  - apply flat_names_differ.
  - intros dst p _. apply flat_move_frame.
  - reflexivity.
  - reflexivity.
  - discriminate.
  - assert (Ek : k = 1).
    { destruct k as [|[|k]]; [lia | reflexivity |].
      specialize (Htaken 1). cbv in Htaken. discriminate Htaken. lia. }
    subst k. destruct (Hrun 2) as [st' [Hone [_ [Hm Hc]]]]; [lia |].
    exists st'. split; [exact Hone |]. split; [exact Hm | exact Hc].
Defined.

(** The first call moves both text files and leaves the tree [organized]. *)
Example organize_files_first_call :
  option_map (fun r => (fst r, @fs Demo.flat (snd r)))
    (@organize_files Demo.flat 1 "txt" "/r" "Archive" (Demo.start Demo.two_files))
  = Some (Return "Successfully moved 2 files to /r/Archive.", Demo.organized).
Proof. reflexivity. Qed.

(** The second call finds the two files in the archive and skips both. *)
Lemma organize_files_skips_target_files_witness :
  exists w',
    @organize_files Demo.flat 0 "txt" "/r" "Archive" (Demo.start Demo.organized)
    = Some (Return "Successfully moved 0 files to /r/Archive.", w')
    /\ @fs Demo.flat w' = Demo.organized
    /\ only_prints [] (@trace Demo.flat w').
Proof.
  destruct (@organize_files_skips_target_files Demo.flat 0 "txt" "/r" "Archive"
              (Demo.start Demo.organized)) as [_ [_ H]];
    [reflexivity | reflexivity |].
  apply H. repeat constructor.
Defined.

(** Two rate-limited failures, then a reply: the loop sleeps 10 and 20
    seconds and prints the reply. *)
Example respond_third_attempt_succeeds :
  @respond Demo.scripted "hi" [inr "429 Too Many Requests"; inr "429"; inl "done"] []
  = Some ([],
          [ Send "hi";
            Print "Rate limit hit. Waiting 10 seconds before retry 1/3..."; Sleep 10;
            Send "hi";
            Print "Rate limit hit. Waiting 20 seconds before retry 2/3..."; Sleep 20;
            Send "hi"; Print "Robot: done" ]).
Proof. reflexivity. Qed.

(** Three rate-limited failures: three calls, three sleeps, the final
    notice, and the session reads its next input. *)
Example chat_session_rate_limit_exhausted :
  option_map (fun r => skipn (length banner) (snd r))
    (@chat_session Demo.scripted ["hi"; "exit"] [inr "429"; inr "429"; inr "429"])
  = Some [ Ask (PyStr.nl ++ "You: ");
           Send "hi";
           Print "Rate limit hit. Waiting 10 seconds before retry 1/3..."; Sleep 10;
           Send "hi";
           Print "Rate limit hit. Waiting 20 seconds before retry 2/3..."; Sleep 20;
           Send "hi";
           Print "Rate limit hit. Waiting 30 seconds before retry 3/3..."; Sleep 30;
           Print "Error: Could not get a response after multiple retries due to rate limits.";
           Ask (PyStr.nl ++ "You: ");
           Print "Goodbye!" ].
Proof. reflexivity. Qed.

(** An error without 429 is printed at once and the session goes on. *)
Example chat_session_other_error :
  option_map (fun r => skipn (length banner) (snd r))
    (@chat_session Demo.scripted ["hi"; "QUIT"] [inr "500 Internal error"])
  = Some [ Ask (PyStr.nl ++ "You: ");
           Send "hi"; Print "An error occurred: 500 Internal error";
           Ask (PyStr.nl ++ "You: ");
           Print "Goodbye!" ].
Proof. reflexivity. Qed.

(** * Further properties *)

(** ** The extension and the result of a search *)

Lemma lower_ascii_idempotent (c : ascii) :
  PyStr.lower_ascii (PyStr.lower_ascii c) = PyStr.lower_ascii c.
Proof. destruct c as [[] [] [] [] [] [] [] []]; reflexivity. Qed.

Lemma lower_idempotent (s : string) : PyStr.lower (PyStr.lower s) = PyStr.lower s.
Proof.
  induction s as [|c s IH]; cbn [PyStr.lower]; [reflexivity |].
  now rewrite lower_ascii_idempotent, IH.
Qed.

Lemma mem_ascii_dot (c : ascii) : PyStr.mem_ascii c "." = Ascii.eqb c "."%char.
Proof. cbn [PyStr.mem_ascii]. apply orb_false_r. Qed.

(** Lowercasing and stripping the leading dots commute. *)
Lemma lower_lstrip_dot (s : string) :
  PyStr.lower (PyStr.lstrip "." s) = PyStr.lstrip "." (PyStr.lower s).
Proof.
  induction s as [|c s IH]; [reflexivity |].
  cbn [PyStr.lstrip PyStr.lower]. rewrite !mem_ascii_dot.
  destruct (Ascii.eqb_spec c "."%char) as [->|Hc].
  - exact IH.
  - destruct (Ascii.eqb_spec (PyStr.lower_ascii c) "."%char) as [E|_]; [| reflexivity].
    apply (proj1 (lower_ascii_dot c)) in E. contradiction.
Qed.

Lemma lstrip_idempotent (chars s : string) :
  PyStr.lstrip chars (PyStr.lstrip chars s) = PyStr.lstrip chars s.
Proof.
  induction s as [|c s IH]; [reflexivity |].
  cbn [PyStr.lstrip]. destruct (PyStr.mem_ascii c chars) eqn:E; [exact IH |].
  cbn [PyStr.lstrip]. now rewrite E.
Qed.

(** X2.  The cleaned extension is in normal form: lowercasing it or
    stripping its leading dots changes nothing, and so does cleaning it
    again; in particular it never starts with a dot. *)
Theorem clean_extension_normal_form (file_extension : string) :
  PyStr.lower (clean_extension file_extension) = clean_extension file_extension
  /\ PyStr.lstrip "." (clean_extension file_extension) = clean_extension file_extension
  /\ clean_extension (clean_extension file_extension) = clean_extension file_extension
  /\ PyStr.startswith (clean_extension file_extension) "." = false.
Proof.
  assert (H1 : PyStr.lower (clean_extension file_extension)
               = clean_extension file_extension).
  { unfold clean_extension. now rewrite lower_lstrip_dot, lower_idempotent. }
  assert (H2 : PyStr.lstrip "." (clean_extension file_extension)
               = clean_extension file_extension).
  { unfold clean_extension. apply lstrip_idempotent. }
  split; [exact H1 |]. split; [exact H2 |]. split.
  - unfold clean_extension at 1. now rewrite H1, H2.
  - destruct (clean_extension file_extension) as [|c s] eqn:E; [reflexivity |].
    cbn [PyStr.lstrip] in H2. rewrite mem_ascii_dot in H2.
    unfold PyStr.startswith. cbn [String.prefix].
    destruct (Ascii.eqb_spec c "."%char) as [->|Hc].
    + exfalso. apply (f_equal String.length) in H2. cbn [String.length] in H2.
      assert (Hlen : forall t, String.length (PyStr.lstrip "." t) <= String.length t).
      { induction t as [|d t IHt]; cbn [PyStr.lstrip String.length]; [lia |].
        destruct (PyStr.mem_ascii d "."); cbn [String.length]; lia. }
      specialize (Hlen s). lia.
    + destruct (Ascii.ascii_dec "."%char c) as [E'|_]; [congruence | reflexivity].
Qed.

Section FindMore.

Context {P : Platform}.

(** X1.  Whatever the extension, the root and the tree, the list
    [find_files] returns has at least one entry and at most [max_found] = 50. *)
Theorem find_files_length_bounds (file_extension search_path : string) (w : World) :
  1 <= length (fst (find_files file_extension search_path w)) <= max_found.
Proof.
  rewrite find_files_list.
  destruct (Nat.leb_spec max_found (length (matching file_extension search_path w)))
    as [E|E].
  - rewrite length_map, length_firstn. unfold max_found in *. lia.
  - destruct (traversal_raises file_extension search_path w);
      [cbn [length]; unfold max_found; lia |].
    destruct (matching file_extension search_path w) as [|y ys];
      [cbn [length]; unfold max_found; lia |].
    rewrite length_map. cbn [length] in *. lia.
Qed.

(** X3.  The returned list depends on the extension through its cleaned
    form only, and on the world through its file system only: two
    spellings that clean to the same extension give the same list, and a
    search changes nothing that a later search reads. *)
Theorem find_files_same_for_equal_extensions (e1 e2 search_path : string)
    (w1 w2 : World) :
  clean_extension e1 = clean_extension e2 ->
  fs w1 = fs w2 ->
  fst (find_files e1 search_path w1) = fst (find_files e2 search_path w2)
  /\ fst (find_files e2 search_path (snd (find_files e1 search_path w1)))
     = fst (find_files e1 search_path w1).
Proof.
  intros He Hf.
  assert (H : forall wa wb, fs wa = fs wb ->
                fst (find_files e1 search_path wa) = fst (find_files e2 search_path wb)).
  { intros wa wb Hab. rewrite !find_files_list.
    unfold matching, traversal_raises, search_pattern. now rewrite He, Hab. }
  split; [now apply H |].
  symmetry. apply H. symmetry. apply find_files_frame.
Qed.

(** The world the loop ends in: after the cap notice when the cap was
    reached, as it was otherwise. *)
Lemma find_loop_after (it : list glob_event) (found_files : list string)
    (count : nat) (w : World) :
  count < max_found ->
  after (find_loop it found_files count w)
  = if (max_found - count <=? length (yielded it))%nat then
      print "[Robot] Found 50+ files, stopping search to keep output manageable." w
    else w.
Proof.
  revert found_files count.
  induction it as [|[file_path|e] rest IH]; intros found_files count Hc;
    cbn [find_loop yielded length after].
  - destruct (Nat.leb_spec (max_found - count) 0); [lia | reflexivity].
  - destruct (Nat.leb_spec max_found (count + 1)) as [E|E]; cbn [after].
    + assert (Hd : max_found - count = 1) by lia. rewrite Hd. reflexivity.
    + rewrite (IH _ (count + 1) E).
      assert (Hd : max_found - count = S (max_found - (count + 1))) by lia.
      rewrite Hd. reflexivity.
  - destruct (Nat.leb_spec (max_found - count) 0); [lia | reflexivity].
Qed.

(** X4.  The console output of a search, line by line: the announcement;
    the drive warning when the root, its trailing separators trimmed, ends
    in a colon; the cap notice when the traversal yields 50 paths or more
    before it ends or raises, also when it yields exactly 50 and nothing
    is left out; and the count when a list of paths is returned.  Nothing
    else enters the trace. *)
Theorem find_files_console (file_extension search_path : string) (w : World) :
  trace (snd (find_files file_extension search_path w))
  = (trace w
     ++ [Print (PyStr.nl ++ "[Robot] Searching for '" ++ file_extension
                ++ "' files in '" ++ search_path ++ "'...")]
     ++ (if PyStr.endswith (PyStr.rstrip separators search_path) ":" then
           [Print ("[Robot] Warning: Scanning entire drive " ++ search_path
                   ++ ". This might take a while.")]
         else [])
     ++ search_report file_extension search_path w)%list.
Proof.
  assert (Ha : trace (announced file_extension search_path w)
               = (trace w
                  ++ [Print (PyStr.nl ++ "[Robot] Searching for '" ++ file_extension
                             ++ "' files in '" ++ search_path ++ "'...")]
                  ++ (if PyStr.endswith (PyStr.rstrip separators search_path) ":" then
                        [Print ("[Robot] Warning: Scanning entire drive " ++ search_path
                                ++ ". This might take a while.")]
                      else []))%list).
  { unfold announced.
    destruct (PyStr.endswith (PyStr.rstrip separators search_path) ":");
      cbn [print emit trace]; unfold list_append;
      rewrite <- ?app_assoc; reflexivity. }
  rewrite !app_assoc, <- (app_assoc (trace w)), <- Ha.
  rewrite find_files_unfold. cbv zeta.
  assert (H0 : 0 < max_found) by (unfold max_found; lia).
  pose proof (find_loop_spec (iglob (fs w) (search_pattern file_extension search_path))
                [] 0 (announced file_extension search_path w) H0) as Hs.
  pose proof (find_loop_after (iglob (fs w) (search_pattern file_extension search_path))
                [] 0 (announced file_extension search_path w) H0) as Hw.
  cbv zeta in Hs. rewrite Nat.sub_0_r in Hs, Hw.
  unfold search_report, matching, traversal_raises.
  set (it := iglob (fs w) (search_pattern file_extension search_path)) in *.
  destruct (Nat.leb_spec max_found (length (yielded it))) as [E|E].
  - destruct Hs as [Ho _]. rewrite Ho, Hw. cbn [app].
    destruct (yielded it) as [|y ys] eqn:Ey; [cbn in E; unfold max_found in E; lia |].
    assert (Hl : length (map abspath (firstn max_found (y :: ys)))
                 = Nat.min (length (y :: ys)) max_found).
    { rewrite length_map, length_firstn. lia. }
    destruct (map abspath (firstn max_found (y :: ys))) as [|f l] eqn:Em;
      [cbn [length] in Hl; unfold max_found in *; cbn [length] in *; lia |].
    cbn [snd print emit trace]. unfold list_append. rewrite Hl, <- app_assoc.
    reflexivity.
  - destruct Hs as [Ho _]. rewrite Ho, Hw.
    destruct (raised it) as [e|]; [cbn [snd]; now rewrite app_nil_r |]. cbn [app].
    destruct (yielded it) as [|y ys]; [cbn [snd map]; now rewrite app_nil_r |].
    cbn [map snd print emit trace]. unfold list_append.
    cbn [length] in *. rewrite length_map.
    replace (Nat.min (S (length ys)) max_found) with (S (length ys)) by lia.
    reflexivity.
Qed.

End FindMore.

(** ** What the organizer does to the file system *)

Lemma fs_calls_app (a b : list event) :
  fs_calls (a ++ b) = (fs_calls a ++ fs_calls b)%list.
Proof.
  induction a as [|e a IH]; [reflexivity |].
  destruct e; cbn [app fs_calls]; rewrite ?IH; reflexivity.
Qed.

Lemma fs_calls_only_prints (tr tr' : list event) :
  only_prints tr tr' -> fs_calls tr' = fs_calls tr.
Proof.
  intros [out [-> H]]. rewrite fs_calls_app.
  assert (E : fs_calls out = []).
  { induction out as [|e out IH]; [reflexivity |].
    destruct e; cbn in H |- *; try discriminate; auto. }
  now rewrite E, app_nil_r.
Qed.

Section OrganizeMore.

Context {P : Platform}.

(** Whatever the [while] loop returns is a free path: the destination it
    started from, or a name with a counter. *)
Lemma resolve_collision_some (fuel : nat) :
  forall (fs0 : FS) (target_dir base extension destination : string) (c : nat)
         (r : string),
    resolve_collision fuel fs0 target_dir base extension destination c = Some r ->
    path_exists fs0 r = false
    /\ (r = destination
        \/ exists k, c <= k /\ r = candidate target_dir base extension k).
Proof.
  induction fuel as [|fuel IH]; intros fs0 target_dir base extension destination c r H;
    cbn [resolve_collision] in H; [discriminate |].
  destruct (path_exists fs0 destination) eqn:E.
  - apply IH in H. destruct H as [Hfree [->|[k [Hk ->]]]].
    + split; [exact Hfree |]. right. exists c. split; [lia | reflexivity].
    + split; [exact Hfree |]. right. exists k. split; [lia | reflexivity].
  - injection H as <-. split; [exact E | left; reflexivity].
Qed.

Lemma choose_destination_some (fuel : nat) (fs0 : FS)
    (target_dir file_path destination : string) :
  choose_destination fuel fs0 target_dir (basename file_path) = Some destination ->
  path_exists fs0 destination = false
  /\ name_in_target target_dir file_path destination.
Proof.
  unfold choose_destination, name_in_target.
  destruct (path_exists fs0 (path_join target_dir (basename file_path))) eqn:E.
  - destruct (splitext (basename file_path)) as [base extension]. cbn [fst snd].
    intros H. apply resolve_collision_some in H.
    destruct H as [Hfree [->|[k [Hk ->]]]]; [congruence |].
    split; [exact Hfree |]. right. exists k. auto.
  - intros H. injection H as <-. split; [exact E | left; reflexivity].
Qed.

(** One pass of the loop body: the file is skipped, or moved to a free
    name in the target directory. *)
Lemma move_one_some (fuel : nat) (target_dir file_path : string) (st st' : MoveState) :
  move_one fuel target_dir file_path st = Some st' ->
  (outside target_dir file_path = false /\ st' = st)
  \/ (outside target_dir file_path = true
      /\ exists destination,
           st' = moved_to file_path destination st
           /\ path_exists (fs (world st)) destination = false
           /\ name_in_target target_dir file_path destination).
Proof.
  intros H. destruct (outside target_dir file_path) eqn:E.
  - right. split; [reflexivity |].
    rewrite (move_one_outside _ _ _ _ E) in H.
    destruct (choose_destination fuel (fs (world st)) target_dir (basename file_path))
      as [destination|] eqn:Ec; [| discriminate].
    cbn [option_map] in H. injection H as <-.
    exists destination. split; [reflexivity |].
    now apply choose_destination_some in Ec.
  - left. split; [reflexivity |].
    rewrite (move_one_skip _ _ _ _ E) in H. now injection H.
Qed.

Lemma moved_to_fs_calls (file_path destination : string) (st : MoveState) :
  fs_calls (trace (world (moved_to file_path destination st)))
  = (fs_calls (trace (world st)) ++ [Move file_path destination])%list
  /\ fs (world (moved_to file_path destination st))
     = fst (move (fs (world st)) file_path destination).
Proof.
  unfold moved_to. cbv zeta. cbn [emit fs].
  destruct (move (fs (world st)) file_path destination) as [fs' [e|]];
    [| destruct (print_raises _)];
    cbn [world trace print emit fs fst]; unfold list_append;
    rewrite ?fs_calls_app; cbn [fs_calls]; rewrite ?app_nil_r; auto.
Qed.

(** X7.  A file outside the target directory is never moved onto an
    existing path: whenever the loop body returns, it has called [move]
    once, with a destination that did not exist at that moment and that
    is the file's own name or a suffixed name, directly inside the target
    directory.  And it does return, given fuel, when the file system holds
    finitely many paths and names with different counters are different
    paths. *)
Theorem move_one_never_overwrites (target_dir file_path : string) (st : MoveState)
    (known : list string) :
  (forall p, path_exists (fs (world st)) p = true -> In p known) ->
  (forall j k,
      candidate target_dir (fst (splitext (basename file_path)))
        (snd (splitext (basename file_path))) j
      = candidate target_dir (fst (splitext (basename file_path)))
          (snd (splitext (basename file_path))) k -> j = k) ->
  outside target_dir file_path = true ->
  (exists n, forall fuel, n <= fuel -> move_one fuel target_dir file_path st <> None)
  /\ forall fuel st',
       move_one fuel target_dir file_path st = Some st' ->
       exists destination,
         path_exists (fs (world st)) destination = false
         /\ name_in_target target_dir file_path destination
         /\ fs_calls (trace (world st'))
            = (fs_calls (trace (world st)) ++ [Move file_path destination])%list
         /\ fs (world st') = fst (move (fs (world st)) file_path destination).
Proof.
  intros Hfin Hinj Hout. split.
  - destruct (choose_destination_total (fs (world st)) target_dir (basename file_path)
                known Hfin Hinj) as [n [destination [Hd _]]].
    exists n. intros fuel Hfuel.
    rewrite (move_one_outside _ _ _ _ Hout), (Hd fuel Hfuel). discriminate.
  - intros fuel st' H. apply move_one_some in H.
    destruct H as [[Hin _]|[_ [destination [-> [Hfree Hname]]]]]; [congruence |].
    exists destination. split; [exact Hfree |]. split; [exact Hname |].
    apply moved_to_fs_calls.
Qed.

(** The moves of the loop over the found files. *)
Lemma move_files_some (fuel : nat) (target_dir : string) (files : list string) :
  forall st st',
    move_files fuel target_dir files st = Some st' ->
    exists new,
      fs_calls (trace (world st'))
      = (fs_calls (trace (world st)) ++ map (fun m => Move (fst m) (snd m)) new)%list
      /\ Forall (fun m => In (fst m) files
                          /\ outside target_dir (fst m) = true
                          /\ name_in_target target_dir (fst m) (snd m)) new.
Proof.
  induction files as [|f files IH]; intros st st' H; cbn [move_files] in H.
  - injection H as <-. exists []. split; [now rewrite app_nil_r | constructor].
  - destruct (move_one fuel target_dir f st) as [st1|] eqn:E1; [| discriminate].
    destruct (IH _ _ H) as [new [Hc Hall]].
    assert (Hall' : Forall (fun m => In (fst m) (f :: files)
                                     /\ outside target_dir (fst m) = true
                                     /\ name_in_target target_dir (fst m) (snd m)) new).
    { eapply Forall_impl; [| exact Hall]. intros m [Hin Hrest].
      split; [right; exact Hin | exact Hrest]. }
    apply move_one_some in E1.
    destruct E1 as [[_ ->]|[Hout [destination [-> [_ Hname]]]]].
    + exists new. split; assumption.
    + exists ((f, destination) :: new). split.
      * rewrite Hc. destruct (moved_to_fs_calls f destination st) as [Hm _].
        rewrite Hm, <- app_assoc. reflexivity.
      * constructor; [| exact Hall'].
        cbn [fst snd]. split; [left; reflexivity | split; assumption].
Qed.

(** X8.  The calls by which [organize_files] changes the file system, in
    order: [makedirs] on the target directory, once and first, only when
    the search returned paths and the directory does not exist; then
    [move] calls only, each for a found file outside the target directory
    and to a name directly inside it.  A call that ends with the search's
    message makes none. *)
Theorem organize_files_fs_calls (fuel : nat)
    (file_extension source_path target_folder_name : string) (w w' : World)
    (r : result) :
  let target_dir := path_join source_path target_folder_name in
  let found := fst (find_files file_extension source_path w) in
  organize_files fuel file_extension source_path target_folder_name w = Some (r, w') ->
  exists new,
    fs_calls (trace w')
    = (fs_calls (trace w)
       ++ (match is_sentinel found with
           | Some false => if path_exists (fs w) target_dir then [] else [MakeDirs target_dir]
           | _ => []
           end)
       ++ map (fun m => Move (fst m) (snd m)) new)%list
    /\ Forall (fun m => In (fst m) found
                        /\ outside target_dir (fst m) = true
                        /\ name_in_target target_dir (fst m) (snd m)) new.
Proof.
  intros target_dir found H. unfold organize_files in H.
  destruct (organize_files_search file_extension source_path w
              (print (PyStr.nl ++ "[Robot] Organizing: Moving all '." ++ file_extension
                      ++ "' files from '" ++ source_path ++ "' to '"
                      ++ target_folder_name ++ "'...") w)
              eq_refl (only_prints_print _ w)) as [w1 [Hrun [Hf Ht]]].
  rewrite Hrun in H. fold found in H.
  pose proof (fs_calls_only_prints _ _ Ht) as Hc1.
  destruct (is_sentinel found) as [[|]|] eqn:Es.
  - exists []. cbn [map]. rewrite !app_nil_r. split; [| constructor].
    destruct (hd_error found); injection H as _ <-; exact Hc1.
  - fold target_dir in H. unfold ensure_target in H. rewrite Hf in H.
    destruct (path_exists (fs w) target_dir) eqn:Ex.
    + destruct (move_files fuel target_dir found (mkMoveState 0 [] w1)) as [st|] eqn:Em;
        [| discriminate].
      injection H as _ <-. apply move_files_some in Em.
      destruct Em as [new [Hc Hall]]. cbn [world] in Hc.
      exists new. split; [| exact Hall]. rewrite Hc, Hc1. reflexivity.
    + cbn [emit fs] in H. rewrite Hf in H.
      destruct (makedirs (fs w) target_dir) as [fs' [e|]].
      * injection H as _ <-. exists []. split; [| constructor].
        cbn [trace map]. unfold list_append. rewrite fs_calls_app, Hc1, app_nil_r.
        reflexivity.
      * destruct (move_files fuel target_dir found _) as [st|] eqn:Em; [| discriminate].
        injection H as _ <-. apply move_files_some in Em.
        destruct Em as [new [Hc Hall]]. cbn [world print emit trace] in Hc.
        exists new. split; [| exact Hall]. rewrite Hc. unfold list_append.
        rewrite !fs_calls_app, Hc1. cbn [fs_calls]. rewrite app_nil_r, <- !app_assoc.
        reflexivity.
  - exists []. cbn [map]. rewrite !app_nil_r. split; [| constructor].
    injection H as _ <-. exact Hc1.
Qed.

(** X5.  When the search finds nothing, [organize_files] returns the
    message of the search as its status, whatever the fuel: the text of
    the exception after "Error during search: " when the traversal raised
    before the cap, the "No files with extension" message when it ended
    without a match.  The file system is as before and no call changed
    it. *)
Theorem organize_files_nothing_found (fuel : nat)
    (file_extension source_path target_folder_name : string) (w : World) :
  length (matching file_extension source_path w) < max_found ->
  (traversal_raises file_extension source_path w = None ->
   matching file_extension source_path w = []) ->
  exists w',
    organize_files fuel file_extension source_path target_folder_name w
    = Some (Return (match traversal_raises file_extension source_path w with
                    | Some e => "Error during search: " ++ e
                    | None => "No files with extension ." ++ clean_extension file_extension
                              ++ " found in " ++ source_path
                    end), w')
    /\ fs w' = fs w
    /\ fs_calls (trace w') = fs_calls (trace w).
Proof.
  intros Hlt Hnone. unfold organize_files.
  destruct (organize_files_search file_extension source_path w
              (print (PyStr.nl ++ "[Robot] Organizing: Moving all '." ++ file_extension
                      ++ "' files from '" ++ source_path ++ "' to '"
                      ++ target_folder_name ++ "'...") w)
              eq_refl (only_prints_print _ w)) as [w1 [Hrun [Hf Ht]]].
  rewrite Hrun, find_files_list.
  destruct (Nat.leb_spec max_found (length (matching file_extension source_path w)));
    [lia |].
  destruct (traversal_raises file_extension source_path w) as [e|].
  - rewrite is_sentinel_cons. cbn [PyStr.startswith String.prefix orb hd_error].
    exists w1. split; [reflexivity |]. split; [exact Hf |].
    now apply fs_calls_only_prints.
  - rewrite (Hnone eq_refl). rewrite is_sentinel_cons.
    exists w1. split; [reflexivity |]. split; [exact Hf |].
    now apply fs_calls_only_prints.
Qed.

(** X6.  When the search returned paths, the target directory does not
    exist and [makedirs] raises, [organize_files] returns "Failed to
    create target directory: " with the text of the exception, whatever
    the fuel; [makedirs] was its only call on the file system and no file
    was moved. *)
Theorem organize_files_makedirs_failure (fuel : nat)
    (file_extension source_path target_folder_name : string) (w : World)
    (fs' : FS) (e : string) :
  let target_dir := path_join source_path target_folder_name in
  is_sentinel (fst (find_files file_extension source_path w)) = Some false ->
  path_exists (fs w) target_dir = false ->
  makedirs (fs w) target_dir = (fs', Some e) ->
  exists w',
    organize_files fuel file_extension source_path target_folder_name w
    = Some (Return ("Failed to create target directory: " ++ e), w')
    /\ fs w' = fs'
    /\ fs_calls (trace w') = (fs_calls (trace w) ++ [MakeDirs target_dir])%list
    /\ moves (trace w') = moves (trace w).
Proof.
  intros target_dir Hs Hex Hmk. unfold organize_files.
  destruct (organize_files_search file_extension source_path w
              (print (PyStr.nl ++ "[Robot] Organizing: Moving all '." ++ file_extension
                      ++ "' files from '" ++ source_path ++ "' to '"
                      ++ target_folder_name ++ "'...") w)
              eq_refl (only_prints_print _ w)) as [w1 [Hrun [Hf Ht]]].
  rewrite Hrun, Hs. fold target_dir. unfold ensure_target.
  rewrite Hf, Hex. cbn [emit fs]. rewrite Hf, Hmk.
  eexists. split; [reflexivity |]. cbn [fs trace emit]. unfold list_append.
  split; [reflexivity |].
  rewrite fs_calls_app, moves_app, (fs_calls_only_prints _ _ Ht),
    (moves_only_prints _ _ Ht).
  cbn [fs_calls moves]. now rewrite app_nil_r.
Qed.

End OrganizeMore.

(** ** The session as a whole *)

Lemma sent_app (a b : list event) : sent (a ++ b) = (sent a ++ sent b)%list.
Proof.
  induction a as [|e a IH]; [reflexivity |].
  destruct e; cbn [app sent]; rewrite ?IH; reflexivity.
Qed.

Lemma slept_app (a b : list event) : slept (a ++ b) = slept a + slept b.
Proof.
  induction a as [|e a IH]; [reflexivity |].
  destruct e; cbn [app slept]; rewrite ?IH; lia.
Qed.

Lemma asked_app (a b : list event) : asked (a ++ b) = asked a + asked b.
Proof.
  induction a as [|e a IH]; [reflexivity |].
  destruct e; cbn [app asked]; rewrite ?IH; reflexivity.
Qed.

Section SessionMore.

Context {D : Dispatcher}.

(** What the retry loop adds to the trace from a retry count [rc]: calls
    with the user's input only, at most [max_retries - rc] of them and at
    least one when [rc] is below [max_retries]; sleeps of at most
    10 * (rc + 1) + ... + 10 * max_retries seconds; no prompt. *)
Lemma retry_loop_adds (u : string) (fuel : nat) :
  forall (rc : nat) (chat : Chat) (tr : list event),
    rc <= max_retries ->
    max_retries - rc < fuel ->
    exists r out,
      retry_loop fuel u rc chat tr = Some r
      /\ trace_after r = (tr ++ out)%list
      /\ Forall (fun x => x = u) (sent out)
      /\ length (sent out) <= max_retries - rc
      /\ (rc < max_retries -> 1 <= length (sent out))
      /\ slept out + 5 * (rc * (rc + 1)) <= 60
      /\ asked out = 0.
Proof.
  induction fuel as [|fuel IH]; intros rc chat tr Hrc Hfuel; [lia |].
  cbn [retry_loop].
  destruct (Nat.ltb_spec rc max_retries) as [Hlt|Hge].
  - destruct (send_message chat u) as [[text|e] chat1].
    + eexists. exists [Send u; Print ("Robot: " ++ text)].
      split; [reflexivity |]. cbn [trace_after sent slept asked length].
      unfold list_append. rewrite <- app_assoc.
      split; [reflexivity |]. split; [repeat constructor |].
      unfold max_retries in *.
      repeat split; try lia; destruct rc as [|[|[|rc]]]; cbn; lia.
    + destruct (PyStr.contains "429" e).
      * destruct (IH (rc + 1) chat1
                    (list_append
                       (list_append (list_append tr (Send u))
                          (Print ("Rate limit hit. Waiting " ++ PyStr.str (10 * (rc + 1))
                                  ++ " seconds before retry " ++ PyStr.str (rc + 1)
                                  ++ "/" ++ PyStr.str max_retries ++ "...")))
                       (Sleep (10 * (rc + 1)))))
          as [r [out [Hr [Ht [Hu [Hn [_ [Hs Ha]]]]]]]]; [lia | lia |].
        exists r. eexists. split; [exact Hr |].
        rewrite Ht. unfold list_append. rewrite <- !app_assoc. cbn [app].
        split; [reflexivity |]. cbn [sent slept asked length].
        split; [constructor; [reflexivity | exact Hu] |].
        unfold max_retries in *.
        repeat split; try lia; destruct rc as [|[|[|rc]]]; cbn in Hs |- *; lia.
      * eexists. exists [Send u]. split; [reflexivity |].
        cbn [trace_after sent slept asked length]. split; [reflexivity |].
        split; [repeat constructor |].
        unfold max_retries in *.
        repeat split; try lia; destruct rc as [|[|[|rc]]]; cbn; lia.
  - eexists. exists []. split; [reflexivity |].
    cbn [trace_after sent slept asked length]. rewrite app_nil_r.
    split; [reflexivity |]. split; [constructor |].
    unfold max_retries in *.
    repeat split; try lia; assert (rc = 3) by lia; subst rc; cbn; lia.
Qed.

(** One input that is not an exit command: one to three calls, all with
    that input, at most a minute of sleep, no prompt. *)
Lemma respond_adds (u : string) (chat : Chat) (tr : list event) :
  exists chat' out,
    respond u chat tr = Some (chat', (tr ++ out)%list)
    /\ Forall (fun x => x = u) (sent out)
    /\ 1 <= length (sent out) <= max_retries
    /\ slept out <= 60
    /\ asked out = 0.
Proof.
  unfold respond.
  destruct (retry_loop_adds u (S max_retries) 0 chat tr)
    as [r [out [Hr [Ht [Hu [Hn [H1 [Hs Ha]]]]]]]];
    [unfold max_retries; lia | lia |].
  rewrite Hr, Ht. rewrite Nat.sub_0_r in Hn. cbn [Nat.mul Nat.add] in Hs.
  assert (H1' : 1 <= length (sent out)) by (apply H1; unfold max_retries; lia).
  assert (Hadd : forall line,
             Forall (fun x => x = u) (sent (out ++ [Print line]))
             /\ 1 <= length (sent (out ++ [Print line])) <= max_retries
             /\ slept (out ++ [Print line]) <= 60
             /\ asked (out ++ [Print line]) = 0).
  { intros line. rewrite sent_app, slept_app, asked_app.
    cbn [sent slept asked]. rewrite app_nil_r. repeat split; try assumption; lia. }
  destruct (exit r) as [|e].
  - destruct (max_retries <=? retry_count r)%nat.
    + eexists. eexists. unfold list_append. rewrite <- app_assoc.
      split; [reflexivity | apply Hadd].
    + eexists. eexists. split; [reflexivity |]. repeat split; try assumption; lia.
  - eexists. eexists. unfold list_append. rewrite <- app_assoc.
    split; [reflexivity | apply Hadd].
Qed.

(** The loop over the lines of standard input, from any trace. *)
Lemma session_loop_run (stdin : list string) :
  forall (chat : Chat) (tr : list event),
    exists chat' out,
      session_loop stdin chat tr
      = Some (if existsb is_exit stdin then Exited else RaisedEOFError,
              chat', (tr ++ out)%list)
      /\ asked out = length (before_exit stdin) + 1
      /\ (exists out',
            out = (out' ++ Ask (PyStr.nl ++ "You: ")
                        :: (if existsb is_exit stdin then [Print "Goodbye!"] else []))%list)
      /\ Forall (fun x => In x (before_exit stdin)) (sent out)
      /\ length (before_exit stdin) <= length (sent out)
         <= max_retries * length (before_exit stdin)
      /\ slept out <= 60 * length (before_exit stdin).
Proof.
  induction stdin as [|u stdin IH]; intros chat tr; cbn [session_loop].
  - exists chat, [Ask (PyStr.nl ++ "You: ")].
    cbn [existsb before_exit length sent slept asked]. unfold list_append.
    split; [reflexivity |]. split; [reflexivity |].
    split; [exists []; reflexivity |]. split; [constructor |]. lia.
  - cbn [existsb before_exit]. fold (is_exit u).
    destruct (is_exit u) eqn:Eu.
    + exists chat, [Ask (PyStr.nl ++ "You: "); Print "Goodbye!"].
      cbn [orb length sent slept asked]. unfold list_append. rewrite <- app_assoc.
      split; [reflexivity |]. split; [reflexivity |].
      split; [exists []; reflexivity |]. split; [constructor |]. lia.
    + destruct (respond_adds u chat (list_append tr (Ask (PyStr.nl ++ "You: "))))
        as [chat1 [out1 [Hr [Hu [Hn [Hs Ha]]]]]].
      rewrite Hr.
      destruct (IH chat1 (list_append tr (Ask (PyStr.nl ++ "You: ")) ++ out1)%list)
        as [chat' [out2 [Hrun [Hasked [[out' Hlast] [Hsent [Hlen Hslept]]]]]]].
      rewrite Hrun. cbn [orb].
      exists chat', (Ask (PyStr.nl ++ "You: ") :: out1 ++ out2)%list.
      unfold list_append. rewrite <- !app_assoc. cbn [app].
      split; [reflexivity |].
      cbn [asked sent slept length].
      rewrite asked_app, sent_app, slept_app, length_app.
      split; [lia |].
      split; [exists (Ask (PyStr.nl ++ "You: ") :: out1 ++ out')%list;
              rewrite Hlast; cbn [app]; rewrite app_assoc; reflexivity |].
      split.
      * apply Forall_app. split.
        -- eapply Forall_impl; [| exact Hu]. intros x ->. left. reflexivity.
        -- eapply Forall_impl; [| exact Hsent]. intros x Hx. right. exact Hx.
      * unfold max_retries in *. lia.
Qed.

(** X9.  The session always ends: by the exit when some line of the input
    is "exit" or "quit" in any casing, by the end-of-file error of [input]
    otherwise.  It prompts once for each line before the first exit
    command and once more, reads no later line, and its last output is the
    farewell after an exit command, the prompt otherwise. *)
Theorem chat_session_ends (stdin : list string) (chat : Chat) :
  exists chat' out,
    chat_session stdin chat
    = Some (if existsb is_exit stdin then Exited else RaisedEOFError,
            chat', (banner ++ out)%list)
    /\ asked out = length (before_exit stdin) + 1
    /\ exists out',
         out = (out' ++ Ask (PyStr.nl ++ "You: ")
                     :: (if existsb is_exit stdin then [Print "Goodbye!"] else []))%list.
Proof.
  unfold chat_session.
  destruct (session_loop_run stdin chat banner) as [chat' [out [H [Ha [Hl _]]]]].
  exists chat', out. auto.
Qed.

(** The loop over the lines of standard input, line by line. *)
Lemma session_loop_lines (stdin : list string) :
  forall (chat : Chat) (tr : list event),
    exists chat' parts,
      session_loop stdin chat tr
      = Some (if existsb is_exit stdin then Exited else RaisedEOFError, chat',
              (tr ++ concat (map (fun part => Ask (PyStr.nl ++ "You: ") :: part) parts)
                  ++ Ask (PyStr.nl ++ "You: ")
                  :: (if existsb is_exit stdin then [Print "Goodbye!"] else []))%list)
      /\ Forall2 answers (before_exit stdin) parts.
Proof.
  induction stdin as [|u stdin IH]; intros chat tr; cbn [session_loop].
  - exists chat, []. cbn [existsb before_exit map concat app]. unfold list_append.
    split; [reflexivity | constructor].
  - cbn [existsb before_exit]. fold (is_exit u).
    destruct (is_exit u) eqn:Eu.
    + exists chat, []. cbn [orb map concat app]. unfold list_append.
      rewrite <- app_assoc. split; [reflexivity | constructor].
    + destruct (respond_adds u chat (list_append tr (Ask (PyStr.nl ++ "You: "))))
        as [chat1 [out1 [Hr [Hu [Hn [Hs Ha]]]]]].
      rewrite Hr.
      destruct (IH chat1 (list_append tr (Ask (PyStr.nl ++ "You: ")) ++ out1)%list)
        as [chat' [parts [Hrun Hparts]]].
      rewrite Hrun. cbn [orb].
      exists chat', (out1 :: parts). split.
      * cbn [map concat]. unfold list_append. rewrite <- !app_assoc. reflexivity.
      * constructor; [| exact Hparts].
        exists (length (sent out1)). split; [exact Hn |]. split; [| split; assumption].
        apply Forall_eq_repeat. eapply Forall_impl; [| exact Hu].
        intros x Hx. symmetry. exact Hx.
Qed.

(** X10.  Line by line: the trace of a session is the banner, then for
    each line before the first exit command, in order, the prompt and
    what answers that line, then the last prompt and, after an exit
    command, the farewell.  What answers a line holds at least one and at
    most [max_retries] = 3 calls of the dispatcher, each with the text of
    that line, and at most 60 seconds of sleep.  So an exit command and
    the lines after it are never sent. *)
Theorem chat_session_calls (stdin : list string) (chat : Chat) :
  exists chat' parts,
    chat_session stdin chat
    = Some (if existsb is_exit stdin then Exited else RaisedEOFError, chat',
            (banner
             ++ concat (map (fun part => Ask (PyStr.nl ++ "You: ") :: part) parts)
             ++ Ask (PyStr.nl ++ "You: ")
             :: (if existsb is_exit stdin then [Print "Goodbye!"] else []))%list)
    /\ Forall2 answers (before_exit stdin) parts.
Proof. unfold chat_session. apply session_loop_lines. Qed.

End SessionMore.

(** ** The further properties on the small platforms *)

(** "TXT" and ".txt" name the same search. *)
Lemma find_files_same_for_equal_extensions_witness :
  clean_extension "TXT" = clean_extension ".txt"
  /\ fst (@find_files Demo.flat "TXT" "/r" (Demo.start Demo.two_files))
     = fst (@find_files Demo.flat ".txt" "/r" (Demo.start Demo.two_files)).
Proof.
  split; [reflexivity |].
  apply (@find_files_same_for_equal_extensions Demo.flat "TXT" ".txt" "/r"
           (Demo.start Demo.two_files) (Demo.start Demo.two_files));
    reflexivity.
Defined.

(** A search that raises leaves the organizer with the error as its status. *)
Lemma organize_files_nothing_found_witness :
  exists w',
    @organize_files Demo.failing 0 "txt" "/r" "Archive"
      (@mkWorld Demo.failing Demo.two_files [])
    = Some (Return "Error during search: Permission denied", w')
    /\ @fs Demo.failing w' = Demo.two_files
    /\ fs_calls (@trace Demo.failing w') = [].
Proof.
  apply (@organize_files_nothing_found Demo.failing 0 "txt" "/r" "Archive"
           (@mkWorld Demo.failing Demo.two_files []));
    [vm_compute; lia | discriminate].
Defined.

(** On a read-only file system the archive cannot be created. *)
Lemma organize_files_makedirs_failure_witness :
  exists w',
    @organize_files ReadOnly.platform 0 "txt" "/r" "Archive"
      (@mkWorld ReadOnly.platform Demo.two_files [])
    = Some (Return "Failed to create target directory: Read-only file system: /r/Archive",
            w')
    /\ @fs ReadOnly.platform w' = Demo.two_files
    /\ fs_calls (@trace ReadOnly.platform w') = [MakeDirs "/r/Archive"]
    /\ moves (@trace ReadOnly.platform w') = [].
Proof.
  apply (@organize_files_makedirs_failure ReadOnly.platform 0 "txt" "/r" "Archive"
           (@mkWorld ReadOnly.platform Demo.two_files []) Demo.two_files
           "Read-only file system: /r/Archive");
    reflexivity.
Defined.

(** The second [a.txt] goes to a name that was free. *)
Lemma move_one_never_overwrites_witness :
  exists destination,
    @path_exists Demo.flat Demo.with_archive destination = false
    /\ @name_in_target Demo.flat "/r/Archive" "/r/sub/a.txt" destination
    /\ option_map (fun st => fs_calls (@trace Demo.flat (@world Demo.flat st)))
         (@move_one Demo.flat 2 "/r/Archive" "/r/sub/a.txt"
            (@mkMoveState Demo.flat 0 [] (Demo.start Demo.with_archive)))
       = Some [Move "/r/sub/a.txt" destination].
Proof.
  destruct (@move_one_never_overwrites Demo.flat "/r/Archive" "/r/sub/a.txt"
              (@mkMoveState Demo.flat 0 [] (Demo.start Demo.with_archive))
              (map fst Demo.with_archive)) as [_ H].
  - intros p. apply mem_In.
  - apply flat_names_differ.
  - reflexivity.
  - destruct (@move_one Demo.flat 2 "/r/Archive" "/r/sub/a.txt"
                (@mkMoveState Demo.flat 0 [] (Demo.start Demo.with_archive)))
      as [st'|] eqn:E; [| vm_compute in E; discriminate].
    destruct (H 2 st' E) as [destination [Hfree [Hname [Hcalls _]]]].
    exists destination. split; [exact Hfree |]. split; [exact Hname |].
    cbn [option_map]. rewrite Hcalls. reflexivity.
Defined.

(** The first call: one [makedirs], then two moves into the archive. *)
Lemma organize_files_fs_calls_witness :
  exists r w' new,
    @organize_files Demo.flat 1 "txt" "/r" "Archive" (Demo.start Demo.two_files)
    = Some (r, w')
    /\ fs_calls (@trace Demo.flat w')
       = MakeDirs "/r/Archive" :: map (fun m => Move (fst m) (snd m)) new
    /\ Forall (fun m => @outside Demo.flat "/r/Archive" (fst m) = true
                        /\ @name_in_target Demo.flat "/r/Archive" (fst m) (snd m)) new.
Proof.
  destruct (@organize_files Demo.flat 1 "txt" "/r" "Archive" (Demo.start Demo.two_files))
    as [[r w']|] eqn:E; [| vm_compute in E; discriminate].
  destruct (@organize_files_fs_calls Demo.flat 1 "txt" "/r" "Archive"
              (Demo.start Demo.two_files) w' r E) as [new [Hc Hall]].
  exists r, w', new. split; [reflexivity |]. split; [exact Hc |].
  eapply Forall_impl; [| exact Hall]. intros m [_ Hm]. exact Hm.
Defined.

(** ** How the organizer accounts for the found files *)

Section OrganizeAccounting.

Context {P : Platform}.

Lemma moved_to_ok (file_path destination : string) (st : MoveState) (fs' : FS) :
  move (fs (world st)) file_path destination = (fs', None) ->
  print_raises ("  Moved: " ++ basename file_path) = None ->
  moved_to file_path destination st = after_moved st file_path destination fs'.
Proof.
  intros Hm Hp. unfold moved_to, after_moved. cbv zeta. cbn [emit fs].
  now rewrite Hm, Hp.
Qed.

Lemma moved_to_failed (file_path destination : string) (st : MoveState) (fs' : FS)
    (e : string) :
  move (fs (world st)) file_path destination = (fs', Some e) ->
  moved_to file_path destination st = after_failed st file_path destination fs' e.
Proof.
  intros Hm. unfold moved_to, after_failed. cbv zeta. cbn [emit fs].
  now rewrite Hm.
Qed.

(** Files handled one way each add up: every file outside the target
    directory is one more moved file or one more error. *)
Lemma handled_counts (target_dir : string) (files : list string) (st st' : MoveState) :
  handled target_dir files st st' ->
  moved_count st' + length (errors st')
  = moved_count st + length (errors st) + length (filter (outside target_dir) files).
Proof.
  induction 1 as [st | f files st st' Hout _ IH
                  | f files st st' destination fs' Hout _ _ _ _ IH
                  | f files st st' destination fs' e Hout _ _ _ _ IH];
    cbn [filter]; rewrite ?Hout; cbn [length].
  - lia.
  - exact IH.
  - rewrite IH. cbn [after_moved moved_count errors]. lia.
  - rewrite IH. cbn [after_failed moved_count errors]. unfold list_append.
    rewrite length_app. cbn [length]. lia.
Qed.

(** The loop over the found files ends, given fuel, having handled every
    file one way, when the console prints the name of each. *)
Lemma move_files_handles (target_dir : string) (files : list string) :
  (forall fs0 : FS, exists known, forall p, path_exists fs0 p = true -> In p known) ->
  (forall d base extension j k,
      candidate d base extension j = candidate d base extension k -> j = k) ->
  (forall f, In f files -> print_raises ("  Moved: " ++ basename f) = None) ->
  forall st, exists n st',
    (forall fuel, n <= fuel -> move_files fuel target_dir files st = Some st')
    /\ handled target_dir files st st'.
Proof.
  intros Hfin Hinj.
  induction files as [|f files IH]; intros Hprint st.
  - exists 0, st. split; [reflexivity | constructor].
  - assert (Hprint' : forall g, In g files ->
                        print_raises ("  Moved: " ++ basename g) = None).
    { intros g Hg. apply Hprint. right. exact Hg. }
    destruct (outside target_dir f) eqn:E.
    + destruct (Hfin (fs (world st))) as [known Hk].
      destruct (choose_destination_total (fs (world st)) target_dir (basename f) known
                  Hk (Hinj _ _ _)) as [n1 [destination [Hd _]]].
      destruct (choose_destination_some n1 (fs (world st)) target_dir f destination
                  (Hd n1 (Nat.le_refl n1))) as [Hfree Hname].
      destruct (IH Hprint' (moved_to f destination st)) as [n2 [st' [Hrun Hh]]].
      exists (Nat.max n1 n2), st'. split.
      * intros fuel Hfuel. cbn [move_files].
        rewrite (move_one_outside _ _ _ _ E), Hd by lia. cbn [option_map].
        apply Hrun. lia.
      * destruct (move (fs (world st)) f destination) as [fs' [e|]] eqn:Em.
        -- rewrite (moved_to_failed _ _ _ _ _ Em) in Hh.
           eapply handled_failed; eassumption.
        -- rewrite (moved_to_ok _ _ _ _ Em (Hprint f (or_introl eq_refl))) in Hh.
           eapply handled_moved; eassumption.
    + destruct (IH Hprint' st) as [n [st' [Hrun Hh]]].
      exists n, st'. split.
      * intros fuel Hfuel. cbn [move_files]. rewrite (move_one_skip _ _ _ _ E).
        now apply Hrun.
      * now apply handled_skipped.
Qed.

(** The world in which the move phase starts. *)
Lemma ensure_target_world (target_dir : string) (w : World) :
  path_exists (fs w) target_dir = true \/ snd (makedirs (fs w) target_dir) = None ->
  exists w',
    ensure_target target_dir w = (w', None)
    /\ fs w' = (if path_exists (fs w) target_dir then fs w
                else fst (makedirs (fs w) target_dir)).
Proof.
  intros H. unfold ensure_target.
  destruct (path_exists (fs w) target_dir) eqn:E.
  - exists w. auto.
  - destruct H as [H|H]; [discriminate |].
    cbn [emit fs]. destruct (makedirs (fs w) target_dir) as [fs' [e|]];
      cbn [snd] in H; [discriminate |].
    eexists. split; reflexivity.
Qed.

(** X12.  In a call that reaches the move phase, on a console that prints
    the name of every found file, each found file is handled in exactly
    one of three ways, in the order of the list: skipped when it is in the
    target directory; else [move] is called on the file system as the
    files before it left it, with a free name in the target directory, and
    the file is counted as moved when the call succeeds and recorded as an
    error when it raises, after which the next file is handled.  The
    status is built from the final count and errors, whose sizes add up
    to the number of found files outside the target directory.
    Hypotheses: a file system holds finitely many paths, and names with
    different counters are different paths. *)
Theorem organize_files_handles_every_file
    (file_extension source_path target_folder_name : string) (w : World) :
  let target_dir := path_join source_path target_folder_name in
  let found := fst (find_files file_extension source_path w) in
  (forall fs0 : FS, exists known, forall p, path_exists fs0 p = true -> In p known) ->
  (forall d base extension j k,
      candidate d base extension j = candidate d base extension k -> j = k) ->
  (forall f, In f found -> print_raises ("  Moved: " ++ basename f) = None) ->
  is_sentinel found = Some false ->
  path_exists (fs w) target_dir = true \/ snd (makedirs (fs w) target_dir) = None ->
  exists n w0 st,
    (forall fuel, n <= fuel ->
       organize_files fuel file_extension source_path target_folder_name w
       = Some (Return (result_msg st target_dir), world st))
    /\ fs w0 = (if path_exists (fs w) target_dir then fs w
                else fst (makedirs (fs w) target_dir))
    /\ handled target_dir found (mkMoveState 0 [] w0) st
    /\ moved_count st + length (errors st) = length (filter (outside target_dir) found).
Proof.
  intros target_dir found Hfin Hinj Hprint Hs Hdir.
  destruct (organize_files_search file_extension source_path w
              (print (PyStr.nl ++ "[Robot] Organizing: Moving all '." ++ file_extension
                      ++ "' files from '" ++ source_path ++ "' to '"
                      ++ target_folder_name ++ "'...") w)
              eq_refl (only_prints_print _ w)) as [w1 [Hrun [Hf Ht]]].
  rewrite <- Hf in Hdir.
  destruct (ensure_target_world target_dir w1 Hdir) as [w0 [Hens Hfs0]].
  rewrite Hf in Hfs0.
  destruct (move_files_handles target_dir found Hfin Hinj Hprint (mkMoveState 0 [] w0))
    as [n [st [Hmove Hh]]].
  exists n, w0, st. split; [| split; [exact Hfs0 | split; [exact Hh |]]].
  - intros fuel Hfuel. unfold organize_files.
    rewrite Hrun. fold found. rewrite Hs. fold target_dir.
    rewrite Hens, (Hmove fuel Hfuel). reflexivity.
  - apply handled_counts in Hh. cbn [moved_count errors length] in Hh. exact Hh.
Qed.

End OrganizeAccounting.

(** C10 (code bug).  On a console that cannot encode the name of a found
    file the claim fails: the one file outside the target directory is
    moved and counted by line 131, the print of line 132 raises inside the
    [try], and the handler of lines 133-134 records a failure to move it.
    The count is one, the errors are one, their sum is two for one file,
    and the status reports both. *)
Theorem organize_files_counts_moved_file_as_error :
  let w := @mkWorld Strict.platform Strict.tree [] in
  let found := fst (@find_files Strict.platform "txt" "/r" w) in
  filter (@outside Strict.platform "/r/Archive") found = ["/r/sub/" ++ Strict.odd_name]
  /\ option_map
       (fun st => (@moved_count Strict.platform st, @errors Strict.platform st,
                   Demo.content (@fs Strict.platform (@world Strict.platform st))
                     ("/r/Archive/" ++ Strict.odd_name)))
       (@move_files Strict.platform 1 "/r/Archive" found
          (@mkMoveState Strict.platform 0 [] w))
     = Some (1,
             ["Failed to move " ++ Strict.odd_name
              ++ ": 'ascii' codec can't encode character: ordinal not in range(128)"],
             Some "menu")
  /\ option_map fst (@organize_files Strict.platform 1 "txt" "/r" "Archive" w)
     = Some (Return ("Successfully moved 1 files to /r/Archive." ++ PyStr.nl
                     ++ "Errors encountered: Failed to move " ++ Strict.odd_name
                     ++ ": 'ascii' codec can't encode character: ordinal not in range(128)")).
Proof. cbv zeta. repeat split; vm_compute; reflexivity. Qed.

(** Of the two found files one is in the archive and one is moved. *)
Lemma organize_files_handles_every_file_witness :
  exists n w0 st,
    (forall fuel, n <= fuel ->
       @organize_files Demo.flat fuel "txt" "/r" "Archive" (Demo.start Demo.with_archive)
       = Some (Return (@result_msg Demo.flat st "/r/Archive"), @world Demo.flat st))
    /\ @fs Demo.flat w0 = Demo.with_archive
    /\ @handled Demo.flat "/r/Archive" ["/r/Archive/a.txt"; "/r/sub/a.txt"]
         (@mkMoveState Demo.flat 0 [] w0) st
    /\ @moved_count Demo.flat st + length (@errors Demo.flat st) = 1.
Proof.
  exact (@organize_files_handles_every_file Demo.flat "txt" "/r" "Archive"
           (Demo.start Demo.with_archive) flat_finite flat_names_differ
           (fun _ _ => eq_refl) eq_refl (or_introl eq_refl)).
Defined.
